(** * PEP header transform: a shallow embedding of [pep_headers.py]

    The development follows the source file
    [pep_sphinx_extensions/pep_processor/transforms/pep_headers.py]:

    - [Py]: the Python string and list primitives the module calls
      ([str.lower], [str.strip], [str.split], [str.title], [str.replace],
      [str.removesuffix], [int], [re.split], [Path.match]);
    - [Docutils]: the slice of the docutils node API the transform touches;
    - [_process_list_url], [_pretty_thread] and [PEPHeaders.apply].

    Text is modelled by Rocq strings read as sequences of ASCII code points
    (the case and white-space tables below are Python's tables restricted to
    code points below 128; larger bytes are caseless, non-blank symbols). *)

From Stdlib Require Import String Ascii List ZArith NArith Bool Lia DecimalString.
Import ListNotations.

Set Warnings "-register-all".

Local Open Scope string_scope.
Local Open Scope list_scope.

Infix "+:+" := String.append (at level 60, right associativity).

(** ** Exceptions and results *)

(** The reasons for which [apply] raises [PEPParsingError]; the Python
    messages embed the same data ([value], or the pretty-printed field). *)
Inductive pep_fault (F : Type) : Type :=
| EmptyTree                      (* "Document tree is empty." *)
| NoRfc2822Header                (* "Document does not begin with an RFC-2822 header; ..." *)
| NoPepHeader                    (* "Document does not contain an RFC-2822 'PEP' header!" *)
| PepNotInteger (value : string) (* "'PEP' header must contain an integer. ..." *)
| NoTitle                        (* "No title!" *)
| MultipleElements (f : F)       (* "PEP header field body contains multiple elements: ..." *)
| NotParagraph (f : F).          (* "PEP header field body may only contain a single paragraph: ..." *)

Arguments EmptyTree {F}.
Arguments NoRfc2822Header {F}.
Arguments NoPepHeader {F}.
Arguments PepNotInteger {F} value.
Arguments NoTitle {F}.
Arguments MultipleElements {F} f.
Arguments NotParagraph {F} f.

Inductive exn (F : Type) : Type :=
| PEPParsingError (why : pep_fault F)
| ValueError
| IndexError
| KeyError.

Arguments PEPParsingError {F} why.
Arguments ValueError {F}.
Arguments IndexError {F}.
Arguments KeyError {F}.

Inductive result (F A : Type) : Type :=
| Ok (a : A)
| Raise (e : exn F).

Arguments Ok {F A} a.
Arguments Raise {F A} e.

Definition bind {F A B} (m : result F A) (k : A -> result F B) : result F B :=
  match m with
  | Ok a => k a
  | Raise e => Raise e
  end.

Notation "x <- m ;; k" := (bind m (fun x => k))
  (at level 61, m at next level, right associativity).

(** ** Python primitives *)

Module Py.

Definition code (c : ascii) : N := N_of_ascii c.

Definition between (lo hi : N) (c : ascii) : bool :=
  ((lo <=? code c) && (code c <=? hi))%N.

(** [str.isspace] on ASCII: TAB..CR, FS..US and the blank.  [str.strip]
    without argument and the regular expression class [\s] use it. *)
Definition isspace (c : ascii) : bool := between 9 13 c || between 28 32 c.

(** C's [Py_ISSPACE], which [int] applies to an ASCII string. *)
Definition c_isspace (c : ascii) : bool := between 9 13 c || between 32 32 c.

Definition isupper (c : ascii) : bool := between 65 90 c.
Definition islower (c : ascii) : bool := between 97 122 c.
Definition iscased (c : ascii) : bool := isupper c || islower c.
Definition isdigit (c : ascii) : bool := between 48 57 c.

Definition to_lower (c : ascii) : ascii :=
  if isupper c then ascii_of_N (code c + 32) else c.
Definition to_upper (c : ascii) : ascii :=
  if islower c then ascii_of_N (code c - 32) else c.

Fixpoint map_chars (f : ascii -> ascii) (s : string) : string :=
  match s with
  | EmptyString => EmptyString
  | String c r => String (f c) (map_chars f r)
  end.

(** [s.lower()] *)
Definition lower (s : string) : string := map_chars to_lower s.

Fixpoint lstrip (p : ascii -> bool) (s : string) : string :=
  match s with
  | EmptyString => EmptyString
  | String c r => if p c then lstrip p r else s
  end.

Fixpoint rstrip (p : ascii -> bool) (s : string) : string :=
  match s with
  | EmptyString => EmptyString
  | String c r =>
      match rstrip p r with
      | EmptyString => if p c then EmptyString else String c EmptyString
      | r' => String c r'
      end
  end.

(** [s.strip()] is [strip_by isspace s]; [s.strip("/")] is
    [strip_by (Ascii.eqb "/") s]. *)
Definition strip_by (p : ascii -> bool) (s : string) : string :=
  rstrip p (lstrip p s).
Definition strip (s : string) : string := strip_by isspace s.
Definition strip_char (c : ascii) (s : string) : string :=
  strip_by (Ascii.eqb c) s.

(** [s.split(sep)] for a one-character separator: always at least one
    part, empty parts kept. *)
Fixpoint split (sep : ascii) (s : string) : list string :=
  match s with
  | EmptyString => [EmptyString]
  | String c r =>
      if Ascii.eqb c sep then EmptyString :: split sep r
      else match split sep r with
           | h :: t => String c h :: t
           | [] => [String c EmptyString]
           end
  end.

(** [x in l] *)
Definition contains (x : string) (l : list string) : bool :=
  existsb (String.eqb x) l.

(** [l.index(x)]: position of the first occurrence. *)
Fixpoint index (x : string) (l : list string) : option nat :=
  match l with
  | [] => None
  | y :: r => if String.eqb y x then Some 0%nat else option_map S (index x r)
  end.

(** [s.startswith(p)] *)
Definition startswith (p s : string) : bool := String.prefix p s.

Fixpoint take (n : nat) (s : string) : string :=
  match n, s with
  | S k, String c r => String c (take k r)
  | _, _ => EmptyString
  end.

Fixpoint drop (n : nat) (s : string) : string :=
  match n, s with
  | S k, String _ r => drop k r
  | _, _ => s
  end.

Definition endswith (suf s : string) : bool :=
  (String.length suf <=? String.length s)%nat
  && String.eqb (drop (String.length s - String.length suf) s) suf.

(** [s.removesuffix(suf)] *)
Definition removesuffix (suf s : string) : string :=
  if endswith suf s then take (String.length s - String.length suf) s else s.

(** [s.title()]: a cased character is upper-cased when the character
    before it is not cased, and lower-cased otherwise. *)
Fixpoint title_from (previous_is_cased : bool) (s : string) : string :=
  match s with
  | EmptyString => EmptyString
  | String c r =>
      if iscased c
      then String (if previous_is_cased then to_lower c else to_upper c)
                  (title_from true r)
      else String c (title_from false r)
  end.
Definition title (s : string) : string := title_from false s.

(** [s.replace(old, new)] for a non-empty [old]: occurrences are replaced
    from the left and do not overlap; [skip] counts the characters of the
    occurrence just replaced that remain to be passed over. *)
Fixpoint replace_from (skip : nat) (old new s : string) : string :=
  match s with
  | EmptyString => EmptyString
  | String c r =>
      match skip with
      | S k => replace_from k old new r
      | O =>
          if String.prefix old s
          then new +:+ replace_from (String.length old - 1) old new r
          else String c (replace_from 0 old new r)
      end
  end.
Definition replace (old new s : string) : string := replace_from 0 old new s.

(** [int(s)] for a string: blanks around, an optional sign, then decimal
    digits in which single underscores may separate digits.  The result is
    an unbounded integer; the interpreter's configurable limit on the number
    of digits is not part of the model. *)
Definition digit_value (c : ascii) : Z := Z.of_N (code c) - 48.

Fixpoint int_digits (acc : Z) (s : string) : option Z :=
  match s with
  | EmptyString => Some acc
  | String c r =>
      if isdigit c then int_digits (10 * acc + digit_value c) r
      else if Ascii.eqb c "_" then
        match r with
        | String d r' =>
            if isdigit d then int_digits (10 * acc + digit_value d) r'
            else None
        | EmptyString => None
        end
      else None
  end.

Definition int_unsigned (s : string) : option Z :=
  match s with
  | String c r => if isdigit c then int_digits (digit_value c) r else None
  | EmptyString => None
  end.

Definition int (s : string) : option Z :=
  match strip_by c_isspace s with
  | String "+" r => int_unsigned r
  | String "-" r => option_map Z.opp (int_unsigned r)
  | t => int_unsigned t
  end.

(** [re.split(r",?\s+", s)]: a separator is a maximal run of blanks,
    together with one comma when a comma stands immediately before the
    run.  [in_blanks] tells that the characters just read belong to a
    separator, whose run of blanks is still being consumed. *)
Definition next_isspace (s : string) : bool :=
  match s with
  | String c _ => isspace c
  | EmptyString => false
  end.

Fixpoint re_split_from (in_blanks : bool) (s : string) : list string :=
  match s with
  | EmptyString => [EmptyString]
  | String c r =>
      if isspace c then
        if in_blanks then re_split_from true r
        else EmptyString :: re_split_from true r
      else if Ascii.eqb c "," && next_isspace r then
        EmptyString :: re_split_from true r
      else match re_split_from false r with
           | h :: t => String c h :: t
           | [] => [String c EmptyString]
           end
  end.
Definition re_split_comma_blank (s : string) : list string :=
  re_split_from false s.

(** [Path(p).match("pep-*")] on a POSIX path: the pattern is relative, so
    only the last component is compared; empty and "." components are
    dropped when the path is parsed. *)
Definition path_parts (p : string) : list string :=
  filter (fun c => negb (String.eqb c "") && negb (String.eqb c "."))
         (split "/" p).

Definition path_match_pep (p : string) : bool :=
  match rev (path_parts p) with
  | name :: _ => startswith "pep-" name
  | [] => false
  end.

(** [sep.join(l)] *)
Definition join (sep : string) (l : list string) : string :=
  String.concat sep l.

End Py.

Import Py.

(** ** The docutils node API used by the transform *)

Module Docutils.

(** Nodes of a field body and of the text inside it.  [text_element] stands
    for any other docutils [TextElement] (an emphasis, a literal, ...) and
    [element] for any other plain [Element] (a bullet list, a block quote,
    ...). *)
Inductive node : Type :=
| Text (s : string)
| reference (refuri : option string) (children : list node)
| paragraph (children : list node)
| element (tag : string) (children : list node)
| text_element (tag : string) (children : list node).

(** A [field] node: the children of its [field_name] (field[0]) and of its
    [field_body] (field[1]). *)
Record field : Type := mk_field {
  field_name : list node;
  field_body : list node
}.

(** The children of the document: the RFC-2822 header is a [field_list]
    whose ["classes"] attribute holds ["rfc2822"]. *)
Inductive block : Type :=
| field_list (classes : list string) (fields : list field)
| pending (transform : string)
| body_element (n : node).

(** [document["source"]], the children of the document, and the pending
    nodes registered with [note_pending], oldest first. *)
Record document : Type := mk_document {
  source : string;
  children : list block;
  noted_pending : list block
}.

Definition blank_line_pair : string :=
  String (ascii_of_nat 10) (String (ascii_of_nat 10) EmptyString).

Definition nul : ascii := ascii_of_nat 0.

(** [docutils.utils.unescape(text)]: the null-escaped blanks, the
    null-escaped line ends and then the remaining nulls are taken out, one
    pass after the other ([''.join(text.split(sep))] for each). *)
Definition unescape (text : string) : string :=
  replace (String nul EmptyString) ""
    (replace (String nul (String (ascii_of_nat 10) EmptyString)) ""
       (replace (String nul " ") "" text)).

(** [node.astext()]: a [Text] is its string without null escapes; a
    [TextElement] (reference, paragraph, field_name and the others)
    concatenates its children; a plain [Element] (field_body and the others)
    joins them with a blank line. *)
Fixpoint astext (n : node) : string :=
  match n with
  | Text s => unescape s
  | reference _ kids => join "" (map astext kids)
  | paragraph kids => join "" (map astext kids)
  | element _ kids => join blank_line_pair (map astext kids)
  | text_element _ kids => join "" (map astext kids)
  end.

(** [field[0].astext()] and [field[1].astext()] *)
Definition name_astext (f : field) : string :=
  join "" (map astext (field_name f)).
Definition body_astext (f : field) : string :=
  join blank_line_pair (map astext (field_body f)).

(** [document.insert(1, node)] *)
Definition insert_at_1 (b : block) (l : list block) : list block :=
  match l with
  | first :: rest => first :: b :: rest
  | [] => [b]
  end.

End Docutils.

Import Docutils.

Definition error := exn field.
Definition fallible (A : Type) := result field A.

(** The node [nodes.pending(pep_zero.PEPZero)]. *)
Definition PEPZero : block := pending "PEPZero".

(** ** The transform *)

(** Collaborators that the module imports or reads from the settings:
    [_mask_email] of [pep_zero], the URL template
    [document.settings.pep_url] applied to a PEP number with [str.format],
    and Python's [str] on a node that is not a [Text] (the pseudo-XML
    rendering of the element). *)
Class Collaborators : Type := {
  _mask_email : node -> node;
  pep_url_format : Z -> string;
  element_str : node -> string
}.

Section Transform.

Context `{Collaborators}.

(** [str(node)] *)
Definition str (n : node) : string :=
  match n with
  | Text s => s
  | _ => element_str n
  end.

(** [parts[i]], raising [IndexError] out of range. *)
Definition item (parts : list string) (i : nat) : fallible string :=
  match nth_error parts i with
  | Some p => Ok p
  | None => Raise IndexError
  end.

(** [parts.index(x) + k], raising [ValueError] when [x] is absent. *)
Definition index_plus (x : string) (parts : list string) (k : nat)
  : fallible nat :=
  match index x parts with
  | Some i => Ok (i + k)%nat
  | None => Raise ValueError
  end.

Definition _process_list_url (list_url : string) : fallible (string * string) :=
  let parts := split "/" (strip_char "/" (strip (lower list_url))) in
  named <-
    (if contains "archives" parts then
       i <- index_plus "archives" parts 2 ;;
       p <- item parts i ;;
       let list_name := removesuffix "@python.org" p in
       if (6 <? length parts)%nat then
         p6 <- item parts 6 ;;
         if contains p6 ["message"; "thread"]
         then Ok (list_name, p6)
         else Ok (list_name, "list")
       else Ok (list_name, "list")
     else if contains "mailman3" parts then
       i <- index_plus "mailman3" parts 2 ;;
       p <- item parts i ;;
       Ok (removesuffix ".python.org" p, "list")
     else if contains "pipermail" parts then
       i <- index_plus "pipermail" parts 1 ;;
       p <- item parts i ;;
       Ok (p, if (6 <? length parts)%nat then "message" else "list")
     else if contains "listinfo" parts then
       i <- index_plus "listinfo" parts 1 ;;
       p <- item parts i ;;
       Ok (p, "list")
     else Raise ValueError) ;;
  let '(list_name, url_type) := named in
  Ok (replace "Sig" "SIG" (title list_name), url_type).

Definition _pretty_thread (text : node) : fallible node :=
  match _process_list_url (str text) with
  | Ok (list_name, url_type) => Ok (Text (list_name +:+ " " +:+ url_type))
  | Raise ValueError => Ok text
  | Raise e => Raise e
  end.

(** *** The loop body of [apply] *)

(** What one iteration of [for field in header] leaves behind: the field
    as it now stands in the tree, whether it was appended to
    [fields_to_remove], and the exception that ended the iteration. *)
Record visit : Type := mk_visit {
  now : field;
  marked : bool;
  raised : option error
}.

Definition with_paragraph (f : field) (kids : list node) : field :=
  mk_field (field_name f) [paragraph kids].

(** [author], [bdfl-delegate], [pep-delegate], [sponsor]:
    [node.replace_self(_mask_email(node))] on every reference. *)
Definition mask_node (n : node) : node :=
  match n with
  | reference _ _ => _mask_email n
  | _ => n
  end.

(** [discussions-to], [resolution]: one iteration of [for node in para].
    [node["refuri"]] raises [KeyError] without the attribute and [node[0]]
    raises [IndexError] without a child. *)
Definition thread_node (n : node) : fallible node :=
  match n with
  | reference refuri kids =>
      match refuri with
      | None => Raise KeyError
      | Some uri =>
          if startswith "https://mail.python.org" uri then
            match kids with
            | [] => Raise IndexError
            | text :: more =>
                text' <- _pretty_thread text ;;
                Ok (reference refuri (text' :: more))
            end
          else Ok n
      end
  | _ => Ok n
  end.

(** The whole [for node in para] loop: the children of the paragraph as
    they stand when it ends, and the exception that ended it, if any. *)
Fixpoint thread_nodes (para : list node) : list node * option error :=
  match para with
  | [] => ([], None)
  | n :: rest =>
      match thread_node n with
      | Raise e => (para, Some e)
      | Ok n' => let '(rest', r) := thread_nodes rest in (n' :: rest', r)
      end
  end.

(** [replaces], [superseded-by], [requires]: [new_body] after the loop over
    the tokens. *)
Fixpoint pep_links (tokens : list string) : fallible (list node) :=
  match tokens with
  | [] => Ok []
  | pep_str :: rest =>
      match int pep_str with
      | None => Raise ValueError
      | Some pep_num =>
          more <- pep_links rest ;;
          Ok (reference (Some (pep_url_format pep_num)) [Text pep_str]
                :: Text ", " :: more)
      end
  end.

Definition process_field (f : field) : visit :=
  let name := lower (name_astext f) in
  match field_body f with
  | [] => mk_visit f false None
  | _ :: _ :: _ => mk_visit f false (Some (PEPParsingError (MultipleElements f)))
  | [paragraph para] =>
      if contains name ["author"; "bdfl-delegate"; "pep-delegate"; "sponsor"]
      then mk_visit (with_paragraph f (map mask_node para)) false None
      else if contains name ["discussions-to"; "resolution"]
      then let '(para', r) := thread_nodes para in
           mk_visit (with_paragraph f para') false r
      else if contains name ["replaces"; "superseded-by"; "requires"]
      then match pep_links (re_split_comma_blank (body_astext f)) with
           | Ok new_body => mk_visit (with_paragraph f (removelast new_body)) false None
           | Raise e => mk_visit f false (Some e)
           end
      else if contains name ["last-modified"; "content-type"; "version"]
      then mk_visit f true None
      else mk_visit f false None
  | [_] => mk_visit f false (Some (PEPParsingError (NotParagraph f)))
  end.

(** [for field in header]: one [visit] per field that the loop reached. *)
Fixpoint visit_fields (header : list field) : list visit :=
  match header with
  | [] => []
  | f :: rest =>
      let v := process_field f in
      match raised v with
      | Some _ => [v]
      | None => v :: visit_fields rest
      end
  end.

(** The exception that ended the loop, if one did. *)
Fixpoint loop_raised (vs : list visit) : option error :=
  match vs with
  | [] => None
  | v :: rest =>
      match raised v with
      | Some e => Some e
      | None => loop_raised rest
      end
  end.

(** The fields of the header when the loop stops: the visited fields as
    rewritten, then the fields the loop did not reach. *)
Definition header_after_loop (header : list field) (vs : list visit)
  : list field :=
  map now vs ++ skipn (length vs) header.

(** [for field in fields_to_remove: field.parent.remove(field)]: the
    marked fields leave the header, the others keep their places. *)
Definition remove_marked (vs : list visit) : list field :=
  map now (filter (fun v => negb (marked v)) vs).

(** *** [PEPHeaders.apply] *)

Inductive outcome : Type :=
| Returned
| Raised (e : error).

Definition with_children (d : document) (l : list block) : document :=
  mk_document (source d) l (noted_pending d).

(** [self.document.insert(1, pending); self.document.note_pending(pending)] *)
Definition register_pep_zero (d : document) : document :=
  mk_document (source d) (insert_at_1 PEPZero (children d))
              (noted_pending d ++ [PEPZero]).

(** The header object is the first child of the document; the loop changes
    its fields in place. *)
Definition with_header (d : document) (classes : list string)
           (fields : list field) : document :=
  match children d with
  | _ :: rest => with_children d (field_list classes fields :: rest)
  | [] => d
  end.

Definition second_is_title (header : list field) : bool :=
  match header with
  | _ :: title_field :: _ => String.eqb (lower (name_astext title_field)) "title"
  | _ => false
  end.

Definition apply (d : document) : outcome * document :=
  if negb (path_match_pep (source d)) then (Returned, d)
  else
    match children d with
    | [] => (Raised (PEPParsingError EmptyTree), d)
    | field_list classes header :: _ =>
        if negb (contains "rfc2822" classes)
        then (Raised (PEPParsingError NoRfc2822Header), d)
        else
          match header with
          | [] => (Raised IndexError, d)
          | pep_field :: _ =>
              if negb (String.eqb (lower (name_astext pep_field)) "pep")
              then (Raised (PEPParsingError NoPepHeader), d)
              else
                let value := body_astext pep_field in
                match int value with
                | None => (Raised (PEPParsingError (PepNotInteger value)), d)
                | Some pep_num =>
                    let d := if (pep_num =? 0)%Z then register_pep_zero d else d in
                    if (length header <? 2)%nat || negb (second_is_title header)
                    then (Raised (PEPParsingError NoTitle), d)
                    else
                      let vs := visit_fields header in
                      match loop_raised vs with
                      | Some e =>
                          (Raised e, with_header d classes (header_after_loop header vs))
                      | None =>
                          (Returned, with_header d classes (remove_marked vs))
                      end
                end
          end
    | _ :: _ => (Raised (PEPParsingError NoRfc2822Header), d)
    end.

End Transform.

(** ** Observations on documents and fields *)

(** The fields of the header, when the document starts with a field list. *)
Definition header_fields (d : document) : list field :=
  match children d with
  | field_list _ fields :: _ => fields
  | _ => []
  end.

(** The lower-cased name that selects the rewrite rule of a field. *)
Definition rule_name (f : field) : string := lower (name_astext f).

Definition is_masked_name (f : field) : bool :=
  contains (rule_name f) ["author"; "bdfl-delegate"; "pep-delegate"; "sponsor"].
Definition is_thread_name (f : field) : bool :=
  contains (rule_name f) ["discussions-to"; "resolution"].
Definition is_pep_list_name (f : field) : bool :=
  contains (rule_name f) ["replaces"; "superseded-by"; "requires"].
Definition is_unneeded_name (f : field) : bool :=
  contains (rule_name f) ["last-modified"; "content-type"; "version"].

Definition empty_body (f : field) : bool :=
  match field_body f with
  | [] => true
  | _ => false
  end.

(** A non-empty body that is not exactly one paragraph. *)
Definition bad_body (f : field) : bool :=
  match field_body f with
  | [] => false
  | [paragraph _] => false
  | _ => true
  end.

Definition body_fault (f : field) : pep_fault field :=
  match field_body f with
  | _ :: _ :: _ => MultipleElements f
  | _ => NotParagraph f
  end.

(** The fields that the final pass takes out of the header. *)
Definition removed (f : field) : bool :=
  is_unneeded_name f && negb (empty_body f).

(** The PEP number read from the first header field. *)
Definition pep_number (d : document) : option Z :=
  match header_fields d with
  | pep_field :: _ => int (body_astext pep_field)
  | [] => None
  end.

(** The tree once the PEP number is known: the pending node is in place
    exactly when the number is 0. *)
Definition after_pep_number (d : document) : document :=
  match pep_number d with
  | Some 0%Z => register_pep_zero d
  | _ => d
  end.

(** What one token adds to [new_body]: its link, then the separator. *)
Definition with_separator (l : node) : list node := [l; Text ", "].

(** Whether the character [c] occurs in [s], and the last character of [s]. *)
Fixpoint has_char (c : ascii) (s : string) : bool :=
  match s with
  | EmptyString => false
  | String x r => Ascii.eqb x c || has_char c r
  end.

Fixpoint last_char (s : string) : option ascii :=
  match s with
  | EmptyString => None
  | String x EmptyString => Some x
  | String _ r => last_char r
  end.

(** Whether some character of [s] satisfies [p]. *)
Fixpoint any_char (p : ascii -> bool) (s : string) : bool :=
  match s with
  | EmptyString => false
  | String x r => p x || any_char p r
  end.

(** [sep] between consecutive elements, none after the last. *)
Fixpoint separated {A} (sep : A) (l : list A) : list A :=
  match l with
  | [] => []
  | [x] => [x]
  | x :: rest => x :: sep :: separated sep rest
  end.

(** ** The runs of [apply] on a PEP file *)

Section Runs.

Context `{Collaborators}.

(** The run of [apply] on a PEP file, as a case analysis in the order of
    the source. *)
Inductive run : document -> outcome -> document -> Prop :=
| run_empty d :
    children d = [] ->
    run d (Raised (PEPParsingError EmptyTree)) d
| run_no_header d first rest :
    children d = first :: rest ->
    (forall classes header, first <> field_list classes header) ->
    run d (Raised (PEPParsingError NoRfc2822Header)) d
| run_untagged d classes header rest :
    children d = field_list classes header :: rest ->
    contains "rfc2822" classes = false ->
    run d (Raised (PEPParsingError NoRfc2822Header)) d
| run_no_field d classes rest :
    children d = field_list classes [] :: rest ->
    contains "rfc2822" classes = true ->
    run d (Raised IndexError) d
| run_no_pep d classes pep_field more rest :
    children d = field_list classes (pep_field :: more) :: rest ->
    contains "rfc2822" classes = true ->
    rule_name pep_field <> "pep" ->
    run d (Raised (PEPParsingError NoPepHeader)) d
| run_not_integer d classes pep_field more rest :
    children d = field_list classes (pep_field :: more) :: rest ->
    contains "rfc2822" classes = true ->
    rule_name pep_field = "pep" ->
    int (body_astext pep_field) = None ->
    run d (Raised (PEPParsingError (PepNotInteger (body_astext pep_field)))) d
| run_no_title d classes pep_field more rest pep_num :
    children d = field_list classes (pep_field :: more) :: rest ->
    contains "rfc2822" classes = true ->
    rule_name pep_field = "pep" ->
    int (body_astext pep_field) = Some pep_num ->
    second_is_title (pep_field :: more) = false ->
    run d (Raised (PEPParsingError NoTitle)) (after_pep_number d)
| run_loop_raised d classes pep_field more rest pep_num e :
    children d = field_list classes (pep_field :: more) :: rest ->
    contains "rfc2822" classes = true ->
    rule_name pep_field = "pep" ->
    int (body_astext pep_field) = Some pep_num ->
    second_is_title (pep_field :: more) = true ->
    loop_raised (visit_fields (pep_field :: more)) = Some e ->
    run d (Raised e)
        (with_header (after_pep_number d) classes
           (header_after_loop (pep_field :: more)
                              (visit_fields (pep_field :: more))))
| run_returned d classes pep_field more rest pep_num :
    children d = field_list classes (pep_field :: more) :: rest ->
    contains "rfc2822" classes = true ->
    rule_name pep_field = "pep" ->
    int (body_astext pep_field) = Some pep_num ->
    second_is_title (pep_field :: more) = true ->
    loop_raised (visit_fields (pep_field :: more)) = None ->
    run d Returned
        (with_header (after_pep_number d) classes
           (remove_marked (visit_fields (pep_field :: more)))).


(** *** The checks of the header, in the order of the specification *)

(** The first of the checks on the document and on its first two fields
    that fails: empty document; no field list tagged rfc2822 in front;
    first field not named "pep"; its value not an integer; fewer than two
    fields or a second field not named "title". *)
Definition preamble_fault (d : document) : option (pep_fault field) :=
  match children d with
  | [] => Some EmptyTree
  | field_list classes header :: _ =>
      if negb (contains "rfc2822" classes) then Some NoRfc2822Header
      else
        match header with
        | pep_field :: _ =>
            if negb (String.eqb (rule_name pep_field) "pep") then Some NoPepHeader
            else
              match int (body_astext pep_field) with
              | None => Some (PepNotInteger (body_astext pep_field))
              | Some _ => if second_is_title header then None else Some NoTitle
              end
        | [] => Some NoTitle
        end
  | _ :: _ => Some NoRfc2822Header
  end.

(** The fault of the first field whose body is not empty and not exactly
    one paragraph. *)
Definition first_body_fault (header : list field) : option (pep_fault field) :=
  option_map body_fault (find bad_body header).

(** The rewrites of the fields that stand before the first bad body all
    end without exception. *)
Fixpoint rewrites_before_fault (header : list field) : bool :=
  match header with
  | [] => true
  | f :: rest =>
      if bad_body f then true
      else match raised (process_field f) with
           | None => rewrites_before_fault rest
           | Some _ => false
           end
  end.

(** *** The rewrites, as relations between a node and its replacement *)

(** The link that stands for the token [pep_str]. *)
Definition link_of (pep_str : string) (l : node) : Prop :=
  exists pep_num,
    int pep_str = Some pep_num
    /\ l = reference (Some (pep_url_format pep_num)) [Text pep_str].

(** A child of a discussions-to or resolution paragraph and what the
    rewrite leaves in its place. *)
Inductive relabelled : node -> node -> Prop :=
| keep_other n :
    (forall refuri kids, n <> reference refuri kids) ->
    relabelled n n
| keep_foreign uri kids :
    startswith "https://mail.python.org" uri = false ->
    relabelled (reference (Some uri) kids) (reference (Some uri) kids)
| keep_unrecognised uri text more :
    startswith "https://mail.python.org" uri = true ->
    _process_list_url (str text) = Raise ValueError ->
    relabelled (reference (Some uri) (text :: more))
               (reference (Some uri) (text :: more))
| relabel uri text more list_name url_type :
    startswith "https://mail.python.org" uri = true ->
    _process_list_url (str text) = Ok (list_name, url_type) ->
    relabelled (reference (Some uri) (text :: more))
               (reference (Some uri)
                          (Text (list_name +:+ " " +:+ url_type) :: more)).

End Runs.

(** ** The rewrites in the words of the specification *)



(** "The Thread-Label Classifier applied to that target URL": the label made
    from [refuri], when the classifier accepts it. *)
Definition label_of_target (n : node) : option string :=
  match n with
  | reference (Some uri) _ =>
      match _process_list_url uri with
      | Ok (list_name, url_type) => Some (list_name +:+ " " +:+ url_type)
      | Raise _ => None
      end
  | _ => None
  end.

(** ** Sample collaborators *)

Module Sample.

(** [str.format] for the template "https://peps.python.org/pep-{:0>4}/":
    the decimal numeral, right-aligned in a zero-filled width of 4. *)
Definition zero_fill_4 (s : string) : string :=
  match (4 - String.length s)%nat with
  | 3%nat => "000" +:+ s
  | 2%nat => "00" +:+ s
  | 1%nat => "0" +:+ s
  | _ => s
  end.

Definition pep_url (n : Z) : string :=
  "https://peps.python.org/pep-"
    +:+ zero_fill_4 (DecimalString.NilZero.string_of_int (Z.to_int n))
    +:+ "/".

(** A masking function that hides the target of a reference. *)
Definition mask (n : node) : node :=
  match n with
  | reference _ kids => reference None kids
  | _ => n
  end.

Definition host : Collaborators :=
  {| _mask_email := mask;
     pep_url_format := pep_url;
     element_str := fun n => "<" +:+ astext n +:+ ">" |}.

Definition named (n : string) (body : list node) : field :=
  mk_field [Text n] body.
Definition plain (n v : string) : field :=
  named n [paragraph [Text v]].
Definition link (uri text : string) : node :=
  reference (Some uri) [Text text].
Definition pep_document (src : string) (header : list field) : document :=
  mk_document src
    [field_list ["rfc2822"] header; body_element (paragraph [Text "Abstract"])]
    [].


Definition archive_url : string :=
  "https://mail.python.org/archives/list/python-dev@python.org/thread/abcd/".

Definition two_paragraphs : field :=
  named "Abstract" [paragraph [Text "one"]; paragraph [Text "two"]].

(** A PEP with one field of every rule. *)
Definition pep8 : document :=
  pep_document "peps/pep-0008.rst"
    [plain "PEP" "8"; plain "Title" "Style Guide";
     plain "Version" "1"; named "Content-Type" [];
     named "Author" [paragraph [link "mailto:guido@python.org" "Guido"]];
     plain "Replaces" "101, 102";
     named "Discussions-To" [paragraph [link archive_url archive_url]];
     plain "Status" "Active"].

(** The index, and the same header in a file that is not named as a PEP. *)
Definition pep0 : document :=
  pep_document "pep-0000.rst" [plain "PEP" "0"; plain "Title" "Index"].
Definition readme : document :=
  pep_document "README.rst" [plain "PEP" "0"; plain "Title" "Index"].

(** PEP 0 whose fourth field has a body of two paragraphs. *)
Definition late_fault : document :=
  pep_document "pep-0000.rst"
    [plain "PEP" "0"; plain "Title" "Index"; plain "Replaces" "101, 102";
     two_paragraphs].

(** A token that is not a number, before a body of two paragraphs. *)
Definition bad_token_first : document :=
  pep_document "pep-0001.rst"
    [plain "PEP" "1"; plain "Title" "Purpose"; plain "Requires" "101,102";
     two_paragraphs].

Definition empty_version : document :=
  pep_document "pep-0001.rst"
    [plain "PEP" "1"; plain "Title" "Purpose"; named "Version" []].

(** A thread link whose text is not its target. *)
Definition titled_link : document :=
  pep_document "pep-0001.rst"
    [plain "PEP" "1"; plain "Title" "Purpose";
     named "Discussions-To" [paragraph [link archive_url "the thread"]]].

(** A thread link to the root of the archives. *)
Definition short_archives : document :=
  pep_document "pep-0001.rst"
    [plain "PEP" "1"; plain "Title" "Purpose";
     named "Discussions-To"
           [paragraph [link "https://mail.python.org/archives"
                            "https://mail.python.org/archives"]]].

(** The trees that [apply] leaves. *)
Definition pep8_after : document := snd (@apply host pep8).
Definition late_fault_after : document := snd (@apply host late_fault).
End Sample.

(** ** Further observations on the classifier and on the rewrites *)

(** The segments of a URL as [_process_list_url] splits them. *)
Definition url_parts (list_url : string) : list string :=
  split "/" (strip_char "/" (strip (lower list_url))).

(** The position of the segment that names the list: two places after
    "archives" or "mailman3", one place after "pipermail" or "listinfo", for
    the first of these markers that is among the segments. *)
Definition list_name_index (parts : list string) : option nat :=
  if contains "archives" parts
  then option_map (fun i => (i + 2)%nat) (index "archives" parts)
  else if contains "mailman3" parts
  then option_map (fun i => (i + 2)%nat) (index "mailman3" parts)
  else if contains "pipermail" parts
  then option_map (fun i => (i + 1)%nat) (index "pipermail" parts)
  else if contains "listinfo" parts
  then option_map (fun i => (i + 1)%nat) (index "listinfo" parts)
  else None.

(** Whether every character of [s] satisfies [p]. *)
Fixpoint all_chars (p : ascii -> bool) (s : string) : bool :=
  match s with
  | EmptyString => true
  | String x r => p x && all_chars p r
  end.


(** A reference without the attribute [refuri]. *)
Definition missing_refuri (n : node) : bool :=
  match n with
  | reference None _ => true
  | _ => false
  end.

(** Two nodes that differ at most in the first child of a reference. *)
Inductive same_link : node -> node -> Prop :=
| same_node n : same_link n n
| same_target uri text text' more :
    same_link (reference (Some uri) (text :: more))
              (reference (Some uri) (text' :: more)).

(** A reference to the mailing-list host on which the thread rewrite raises
    IndexError: it has no child, or its first child has a marker without the
    segment that should name the list. *)
Definition short_thread_link `{Collaborators} (n : node) : Prop :=
  exists uri kids,
    n = reference (Some uri) kids
    /\ startswith "https://mail.python.org" uri = true
    /\ (kids = []
        \/ exists text more,
            kids = text :: more
            /\ _process_list_url (str text) = Raise IndexError).

(** ** More sample documents *)

Module Cases.

Import Sample.

(** A thread field whose reference has no refuri yet. *)
Definition unresolved_link : document :=
  pep_document "pep-0001.rst"
    [plain "PEP" "1"; plain "Title" "Purpose";
     named "Resolution" [paragraph [Text "see "; reference None [Text "the list"]]]].

(** A list of PEP numbers with uneven separators. *)
Definition uneven_list : field :=
  named "Requires" [paragraph [Text "101,  102"; Text " 103"]].

Definition discussions : field :=
  named "Discussions-To" [paragraph [link archive_url archive_url]].

Definition author : field :=
  named "Author" [paragraph [link "mailto:guido@python.org" "Guido"]].

End Cases.

(** * Properties *)

Section Loop.

Context `{Collaborators}.

(** A loop that ends without exception has visited every field. *)
Lemma visit_fields_completed (header : list field) :
  loop_raised (visit_fields header) = None ->
  visit_fields header = map process_field header
  /\ Forall (fun f => raised (process_field f) = None) header.
Proof.
  induction header as [|f rest IH]; simpl; intros Hdone.
  - split; constructor.
  - destruct (raised (process_field f)) eqn:Hf; simpl in Hdone;
      rewrite Hf in Hdone; [discriminate|].
    destruct (IH Hdone) as [Hmap Hall].
    split; [now rewrite Hmap | now constructor].
Qed.

(** A loop that ends with an exception stopped at the first field whose
    visit raised; the fields after it were not reached. *)
Lemma visit_fields_stopped (header : list field) (e : error) :
  loop_raised (visit_fields header) = Some e ->
  exists pre f post,
    header = pre ++ f :: post
    /\ Forall (fun g => raised (process_field g) = None) pre
    /\ raised (process_field f) = Some e
    /\ visit_fields header = map process_field pre ++ [process_field f].
Proof.
  induction header as [|f rest IH]; simpl; intros Hstop; [discriminate|].
  destruct (raised (process_field f)) eqn:Hf; simpl in Hstop; rewrite Hf in Hstop.
  - injection Hstop as ->.
    exists [], f, rest. repeat split; auto.
  - destruct (IH Hstop) as (pre & g & post & -> & Hpre & Hg & Hvs).
    exists (f :: pre), g, post. simpl. rewrite Hvs.
    repeat split; auto.
Qed.

Lemma visit_fields_stops_at (pre post : list field) (f : field) (e : error) :
  Forall (fun g => raised (process_field g) = None) pre ->
  raised (process_field f) = Some e ->
  visit_fields (pre ++ f :: post) = map process_field pre ++ [process_field f]
  /\ loop_raised (visit_fields (pre ++ f :: post)) = Some e.
Proof.
  intros Hpre Hf. induction Hpre as [|g pre Hg _ [IHv IHl]]; simpl.
  - rewrite Hf. simpl. rewrite Hf. auto.
  - rewrite Hg. simpl. rewrite Hg, IHv. rewrite IHv in IHl. auto.
Qed.

(** The header when the loop was stopped at [f]: the fields before [f] as
    rewritten, then [f] as its own visit left it, then the others. *)
Lemma header_after_stop (pre post : list field) (f : field) :
  header_after_loop (pre ++ f :: post)
                    (map process_field pre ++ [process_field f])
  = map (fun g => now (process_field g)) pre ++ now (process_field f) :: post.
Proof.
  unfold header_after_loop.
  rewrite map_app, map_map, length_app, length_map. simpl.
  rewrite <- app_assoc. simpl. f_equal. f_equal.
  replace (length pre + 1)%nat with (length (pre ++ [f])).
  - replace (pre ++ f :: post) with ((pre ++ [f]) ++ post)
      by now rewrite <- app_assoc.
    rewrite skipn_app, skipn_all, Nat.sub_diag. reflexivity.
  - rewrite length_app. reflexivity.
Qed.

(** *** Which exceptions the rewrites raise *)

Lemma item_raises (parts : list string) (i : nat) (e : error) :
  item parts i = Raise e -> e = IndexError.
Proof.
  unfold item. destruct (nth_error parts i); intros Hr; now inversion Hr.
Qed.

Lemma index_plus_raises (x : string) (parts : list string) (k : nat) (e : error) :
  index_plus x parts k = Raise e -> e = ValueError.
Proof.
  unfold index_plus. destruct (index x parts); intros Hr; now inversion Hr.
Qed.

Ltac raise_cases :=
  repeat match goal with
    | Hr : Raise _ = Raise _ |- _ => inversion Hr; subst; clear Hr
    | Hr : Ok _ = Raise _ |- _ => discriminate Hr
    | Hr : bind ?m _ = Raise _ |- _ =>
        let Hm := fresh "Hm" in destruct m eqn:Hm; simpl in Hr
    | Hr : (if ?b then _ else _) = Raise _ |- _ => destruct b
    | Hr : (let '(_, _) := ?p in _) = Raise _ |- _ => destruct p
    | Hr : item _ _ = Raise _ |- _ => apply item_raises in Hr; subst
    | Hr : index_plus _ _ _ = Raise _ |- _ => apply index_plus_raises in Hr; subst
    end.

Lemma process_list_url_raises (list_url : string) (e : error) :
  _process_list_url list_url = Raise e -> e = ValueError \/ e = IndexError.
Proof.
  unfold _process_list_url. intros Hr. raise_cases; auto.
Qed.

Lemma pretty_thread_raises (text : node) (e : error) :
  _pretty_thread text = Raise e -> e = IndexError.
Proof.
  unfold _pretty_thread.
  destruct (_process_list_url (str text)) as [[name kind]|e'] eqn:Hurl;
    [discriminate|].
  apply process_list_url_raises in Hurl.
  destruct Hurl as [-> | ->]; intros Hr; now inversion Hr.
Qed.

Lemma thread_node_raises (n : node) (e : error) :
  thread_node n = Raise e -> e = KeyError \/ e = IndexError.
Proof.
  destruct n as [s|[uri|] kids|kids|tag kids|tag kids]; simpl; try discriminate.
  - destruct (startswith _ uri); [|discriminate].
    destruct kids as [|text more]; [intros Hr; inversion Hr; auto|].
    destruct (_pretty_thread text) eqn:Hp; simpl; [discriminate|].
    intros Hr; inversion Hr; subst. right. eapply pretty_thread_raises; eauto.
  - intros Hr; inversion Hr; auto.
Qed.

Lemma thread_nodes_raises (para : list node) (e : error) :
  snd (thread_nodes para) = Some e -> e = KeyError \/ e = IndexError.
Proof.
  induction para as [|n rest IH]; simpl; [discriminate|].
  destruct (thread_node n) eqn:Hn; simpl.
  - destruct (thread_nodes rest); simpl in *. auto.
  - intros Hr; inversion Hr; subst. eapply thread_node_raises; eauto.
Qed.

Lemma pep_links_raises (tokens : list string) (e : error) :
  pep_links tokens = Raise e -> e = ValueError.
Proof.
  induction tokens as [|t rest IH]; simpl; [discriminate|].
  destruct (int t); [|intros Hr; now inversion Hr].
  destruct (pep_links rest); simpl; [discriminate|].
  intros Hr; inversion Hr; subst. now apply IH.
Qed.

(** *** The loop body, one body shape at a time *)

Lemma process_field_empty (f : field) :
  field_body f = [] -> process_field f = mk_visit f false None.
Proof. unfold process_field. now intros ->. Qed.

Lemma process_field_bad_body (f : field) :
  bad_body f = true ->
  process_field f = mk_visit f false (Some (PEPParsingError (body_fault f))).
Proof.
  unfold process_field, bad_body, body_fault.
  destruct (field_body f) as [|[s|uri kids|kids|tag kids|tag kids] [|n rest]];
    try discriminate; reflexivity.
Qed.

Lemma process_field_paragraph (f : field) (para : list node) :
  field_body f = [paragraph para] ->
  process_field f =
    if is_masked_name f
    then mk_visit (with_paragraph f (map mask_node para)) false None
    else if is_thread_name f
    then mk_visit (with_paragraph f (fst (thread_nodes para))) false
                  (snd (thread_nodes para))
    else if is_pep_list_name f
    then match pep_links (re_split_comma_blank (body_astext f)) with
         | Ok new_body => mk_visit (with_paragraph f (removelast new_body)) false None
         | Raise e => mk_visit f false (Some e)
         end
    else if is_unneeded_name f
    then mk_visit f true None
    else mk_visit f false None.
Proof.
  unfold process_field, is_masked_name, is_thread_name, is_pep_list_name,
    is_unneeded_name, rule_name.
  intros ->.
  destruct (contains _ ["author"; _; _; _]); [reflexivity|].
  destruct (contains _ ["discussions-to"; _]); [|reflexivity].
  now destruct (thread_nodes para).
Qed.

Lemma bad_body_cases (f : field) :
  field_body f = [] \/ (exists para, field_body f = [paragraph para])
  \/ bad_body f = true.
Proof.
  unfold bad_body.
  destruct (field_body f) as [|[s|uri kids|kids|tag kids|tag kids] [|n rest]]; eauto.
Qed.

(** The shape check precedes every rewrite: a visit raises the structural
    error exactly on a bad body, and leaves the field as it was. *)
Lemma process_field_fault (f : field) (why : pep_fault field) :
  raised (process_field f) = Some (PEPParsingError why) ->
  bad_body f = true /\ why = body_fault f /\ now (process_field f) = f.
Proof.
  destruct (bad_body_cases f) as [Hb | [[para Hb] | Hb]].
  - rewrite (process_field_empty f Hb). discriminate.
  - rewrite (process_field_paragraph f para Hb).
    destruct (is_masked_name f); [discriminate|].
    destruct (is_thread_name f).
    + simpl. intros Hr. apply thread_nodes_raises in Hr.
      destruct Hr; discriminate.
    + destruct (is_pep_list_name f).
      * destruct (pep_links _) eqn:Hl; simpl; [discriminate|].
        apply pep_links_raises in Hl. subst. discriminate.
      * destruct (is_unneeded_name f); discriminate.
  - rewrite (process_field_bad_body f Hb). simpl.
    intros Hr; inversion Hr. auto.
Qed.

Lemma process_field_name (f : field) :
  field_name (now (process_field f)) = field_name f.
Proof.
  destruct (bad_body_cases f) as [Hb | [[para Hb] | Hb]].
  - now rewrite (process_field_empty f Hb).
  - rewrite (process_field_paragraph f para Hb).
    repeat match goal with
           | |- context [if ?b then _ else _] => destruct b
           | |- context [match ?m with Ok _ => _ | Raise _ => _ end] => destruct m
           end; reflexivity.
  - now rewrite (process_field_bad_body f Hb).
Qed.

Lemma contains_In (x : string) (l : list string) :
  contains x l = true -> In x l.
Proof.
  unfold contains. intros Hc.
  apply existsb_exists in Hc. destruct Hc as (y & Hy & Heq).
  apply String.eqb_eq in Heq. now subst.
Qed.

(** The four name sets of the rewrite rules do not overlap. *)
Lemma unneeded_name_only (f : field) :
  is_unneeded_name f = true ->
  is_masked_name f = false /\ is_thread_name f = false
  /\ is_pep_list_name f = false.
Proof.
  unfold is_unneeded_name, is_masked_name, is_thread_name, is_pep_list_name.
  generalize (rule_name f) as x. intros x Hx.
  apply contains_In in Hx. simpl in Hx.
  destruct Hx as [<-|[<-|[<-|[]]]]; repeat split; reflexivity.
Qed.

(** A field is marked for removal exactly when it has an unneeded name and
    a body, which the shape check then found to be one paragraph. *)
Lemma process_field_marked (f : field) :
  raised (process_field f) = None ->
  marked (process_field f) = removed f.
Proof.
  unfold removed, empty_body.
  destruct (bad_body_cases f) as [Hb | [[para Hb] | Hb]].
  - rewrite (process_field_empty f Hb), Hb. simpl.
    now rewrite andb_false_r.
  - rewrite (process_field_paragraph f para Hb), Hb. simpl.
    rewrite andb_true_r.
    destruct (is_unneeded_name f) eqn:Hun.
    + destruct (unneeded_name_only f Hun) as (-> & -> & ->). reflexivity.
    + repeat match goal with
             | |- context [if ?b then _ else _] => destruct b
             | |- context [match ?m with Ok _ => _ | Raise _ => _ end] => destruct m
             end; reflexivity.
  - rewrite (process_field_bad_body f Hb). discriminate.
Qed.

(** The final pass keeps, in their order, the fields that were not marked. *)
Lemma remove_marked_completed (header : list field) :
  Forall (fun f => raised (process_field f) = None) header ->
  remove_marked (map process_field header)
  = map (fun f => now (process_field f))
        (filter (fun f => negb (removed f)) header).
Proof.
  unfold remove_marked.
  induction 1 as [|f rest Hf _ IH]; simpl; [reflexivity|].
  rewrite (process_field_marked f Hf).
  destruct (removed f); simpl; now rewrite IH.
Qed.

(** *** [apply], outcome by outcome *)

Lemma header_fields_with_header (d : document) (classes : list string)
      (fields : list field) :
  children d <> [] ->
  header_fields (with_header d classes fields) = fields.
Proof.
  unfold header_fields, with_header.
  destruct (children d); [congruence | reflexivity].
Qed.

Lemma children_register_pep_zero (d : document) (first : block) (rest : list block) :
  children d = first :: rest ->
  children (register_pep_zero d) = first :: PEPZero :: rest.
Proof. intros Hc. simpl. now rewrite Hc. Qed.

Lemma second_is_title_length (header : list field) :
  (length header <? 2)%nat || negb (second_is_title header)
  = negb (second_is_title header).
Proof. destruct header as [|f [|g rest]]; reflexivity. Qed.

(** Every call of [apply] on a PEP file is one of the runs. *)
Lemma apply_run (d : document) :
  path_match_pep (source d) = true ->
  run d (fst (apply d)) (snd (apply d)).
Proof.
  intros Hpath. unfold apply. rewrite Hpath. cbv beta iota zeta. cbn [negb].
  destruct (children d) as [|first rest] eqn:Hc.
  { now apply run_empty. }
  destruct first as [classes header|t|n];
    try (eapply run_no_header; [exact Hc | discriminate]).
  destruct (contains "rfc2822" classes) eqn:Htag; cbn [negb fst snd];
    [|eapply run_untagged; eauto].
  destruct header as [|pep_field more];
    [eapply run_no_field; eauto|].
  destruct (String.eqb (lower (name_astext pep_field)) "pep") eqn:Hname;
    cbn [negb fst snd].
  2:{ apply String.eqb_neq in Hname. eapply run_no_pep; eauto. }
  apply String.eqb_eq in Hname.
  assert (Hnum : pep_number d = int (body_astext pep_field)).
  { unfold pep_number, header_fields. now rewrite Hc. }
  destruct (int (body_astext pep_field)) as [pep_num|] eqn:Hint;
    [|eapply run_not_integer; eauto].
  assert (Hbase : (if (pep_num =? 0)%Z then register_pep_zero d else d)
                  = after_pep_number d).
  { unfold after_pep_number. rewrite Hnum.
    destruct pep_num; reflexivity. }
  rewrite Hbase, second_is_title_length.
  destruct (second_is_title (pep_field :: more)) eqn:Htitle; cbn [negb fst snd].
  2:{ eapply run_no_title; eauto. }
  destruct (loop_raised (visit_fields (pep_field :: more))) eqn:Hloop;
    cbn [fst snd].
  - eapply run_loop_raised; eauto.
  - eapply run_returned; eauto.
Qed.

Lemma children_after_pep_number (d : document) (first : block) (rest : list block) :
  children d = first :: rest ->
  children (after_pep_number d) = first :: rest
  \/ children (after_pep_number d) = first :: PEPZero :: rest.
Proof.
  intros Hc. unfold after_pep_number.
  destruct (pep_number d) as [[| |]|]; auto.
  right. now apply children_register_pep_zero.
Qed.

Lemma header_fields_after_loop (d : document) (classes : list string)
      (header fields : list field) (rest : list block) :
  children d = field_list classes header :: rest ->
  header_fields (with_header (after_pep_number d) classes fields) = fields.
Proof.
  intros Hc. apply header_fields_with_header.
  destruct (children_after_pep_number d _ _ Hc) as [-> | ->]; discriminate.
Qed.

(** A normal return from a PEP file: every field was visited without
    exception, and the header holds the unmarked fields as rewritten. *)
Lemma apply_returned (d d' : document) :
  path_match_pep (source d) = true ->
  apply d = (Returned, d') ->
  Forall (fun f => raised (process_field f) = None) (header_fields d)
  /\ header_fields d'
     = map (fun f => now (process_field f))
           (filter (fun f => negb (removed f)) (header_fields d)).
Proof.
  intros Hpath Happly.
  pose proof (apply_run d Hpath) as Hrun. rewrite Happly in Hrun. simpl in Hrun.
  inversion Hrun as [| | | | | | | |? classes pep_field more rest pep_num
                       Hc Htag Hname Hint Htitle Hloop]; subst.
  destruct (visit_fields_completed _ Hloop) as [Hvs Hall].
  assert (Hh : header_fields d = pep_field :: more).
  { unfold header_fields. now rewrite Hc. }
  rewrite Hh. split; [exact Hall|].
  rewrite (header_fields_after_loop d classes _ _ rest Hc), Hvs.
  now apply remove_marked_completed.
Qed.

Lemma apply_not_pep (d : document) :
  path_match_pep (source d) = false -> apply d = (Returned, d).
Proof. intros Hpath. unfold apply. now rewrite Hpath. Qed.

(** C7: on a document whose source file name does not match "pep-*",
    [apply] returns at once, raises nothing and leaves the tree as it is. *)
Theorem apply_is_noop_off_pep_files (d : document) :
  path_match_pep (source d) = false ->
  fst (apply d) = Returned /\ snd (apply d) = d.
Proof. intros Hpath. now rewrite (apply_not_pep d Hpath). Qed.

(** *** Fields with an empty body *)

Lemma header_fields_after_pep_number (d : document) :
  header_fields (after_pep_number d) = header_fields d.
Proof.
  unfold after_pep_number, header_fields.
  destruct (pep_number d) as [[| |]|]; try reflexivity.
  simpl. destruct (children d) as [|[]]; reflexivity.
Qed.

Lemma empty_body_survives_stop (header : list field) (f : field) :
  In f header -> field_body f = [] ->
  In f (header_after_loop header (visit_fields header)).
Proof.
  unfold header_after_loop.
  induction header as [|g rest IH]; simpl; [tauto|].
  intros [-> | Hin] Hb.
  - rewrite (process_field_empty f Hb). simpl. now left.
  - destruct (raised (process_field g)); simpl; right; auto.
Qed.

Lemma empty_body_survives_removal (header : list field) (f : field) :
  In f header -> field_body f = [] ->
  loop_raised (visit_fields header) = None ->
  In f (remove_marked (visit_fields header)).
Proof.
  intros Hin Hb Hloop.
  destruct (visit_fields_completed header Hloop) as [-> Hall].
  rewrite (remove_marked_completed header Hall).
  replace f with (now (process_field f)) at 1
    by now rewrite (process_field_empty f Hb).
  apply (in_map (fun g => now (process_field g))), filter_In.
  split; [exact Hin|].
  unfold removed, empty_body. rewrite Hb. now rewrite andb_false_r.
Qed.

(** C10: a header field whose body is empty is left alone whatever its
    name: its visit checks nothing, rewrites nothing, does not mark it for
    removal, and the field is still in the header when [apply] ends. *)
Theorem empty_body_field_is_untouched (d : document) (f : field) :
  In f (header_fields d) ->
  field_body f = [] ->
  process_field f = mk_visit f false None
  /\ In f (header_fields (snd (apply d))).
Proof.
  intros Hin Hb. split; [now apply process_field_empty|].
  destruct (path_match_pep (source d)) eqn:Hpath.
  2:{ now rewrite (apply_not_pep d Hpath). }
  generalize (apply_run d Hpath).
  generalize (fst (apply d)) (snd (apply d)). intros o d' Hrun.
  destruct Hrun as [ | | | | |
                    | d classes pep_field more rest pep_num Hc
                    | d classes pep_field more rest pep_num e Hc
                    | d classes pep_field more rest pep_num Hc ? ? ? ? Hloop ];
    try exact Hin.
  - now rewrite header_fields_after_pep_number.
  - assert (Hh : header_fields d = pep_field :: more)
      by (unfold header_fields; now rewrite Hc).
    rewrite (header_fields_after_loop d classes _ _ rest Hc).
    apply empty_body_survives_stop; [now rewrite <- Hh | exact Hb].
  - assert (Hh : header_fields d = pep_field :: more)
      by (unfold header_fields; now rewrite Hc).
    rewrite (header_fields_after_loop d classes _ _ rest Hc).
    apply empty_body_survives_removal; [now rewrite <- Hh | exact Hb | exact Hloop].
Qed.

(** *** Order and removal of fields *)

Lemma rule_name_visited (f : field) :
  rule_name (now (process_field f)) = rule_name f.
Proof. unfold rule_name, name_astext. now rewrite process_field_name. Qed.

Lemma process_field_unrecognised (f : field) :
  raised (process_field f) = None ->
  is_masked_name f = false -> is_thread_name f = false ->
  is_pep_list_name f = false -> is_unneeded_name f = false ->
  process_field f = mk_visit f false None.
Proof.
  intros Hr Hm Ht Hp Hu.
  destruct (bad_body_cases f) as [Hb | [[para Hb] | Hb]].
  - now apply process_field_empty.
  - rewrite (process_field_paragraph f para Hb). now rewrite Hm, Ht, Hp, Hu.
  - rewrite (process_field_bad_body f Hb) in Hr. discriminate.
Qed.

(** C4, as the code has it: when [apply] returns normally on a PEP file,
    the header holds the fields that were not removed, rewritten, in their
    original order; the removed fields are those with an unneeded name
    (last-modified, content-type, version) and a non-empty body, so a
    surviving field with such a name has an empty body; a field whose name
    belongs to no rule is still there, unchanged. *)
Theorem surviving_fields_keep_their_order (d d' : document) :
  path_match_pep (source d) = true ->
  apply d = (Returned, d') ->
  header_fields d'
  = map (fun f => now (process_field f))
        (filter (fun f => negb (removed f)) (header_fields d))
  /\ map field_name (header_fields d')
     = map field_name (filter (fun f => negb (removed f)) (header_fields d))
  /\ Forall (fun f' => is_unneeded_name f' = true -> field_body f' = [])
            (header_fields d')
  /\ (forall f,
         In f (header_fields d) ->
         is_masked_name f = false -> is_thread_name f = false ->
         is_pep_list_name f = false -> is_unneeded_name f = false ->
         now (process_field f) = f /\ In f (header_fields d')).
Proof.
  intros Hpath Happly.
  destruct (apply_returned d d' Hpath Happly) as [Hall ->].
  split; [reflexivity|]. split; [|split].
  - rewrite map_map. apply map_ext. intros f. apply process_field_name.
  - apply Forall_forall. intros f' Hin'.
    apply in_map_iff in Hin'. destruct Hin' as (f & <- & Hin).
    apply filter_In in Hin. destruct Hin as [Hin Hkept].
    unfold is_unneeded_name. rewrite rule_name_visited.
    fold (is_unneeded_name f). intros Hun.
    unfold removed in Hkept. rewrite Hun in Hkept. simpl in Hkept.
    apply negb_true_iff, negb_false_iff in Hkept.
    unfold empty_body in Hkept.
    destruct (field_body f) eqn:Hb; [|discriminate].
    now rewrite (process_field_empty f Hb).
  - intros f Hin Hm Ht Hp Hu.
    rewrite Forall_forall in Hall.
    pose proof (process_field_unrecognised f (Hall f Hin) Hm Ht Hp Hu) as Hv.
    split; [now rewrite Hv|].
    replace f with (now (process_field f)) at 1 by now rewrite Hv.
    apply (in_map (fun g => now (process_field g))), filter_In.
    split; [exact Hin|]. unfold removed. now rewrite Hu.
Qed.

(** *** The pending node of PEP 0 *)

Lemma run_registers (d d' : document) (o : outcome) (classes : list string)
      (pep_field : field) (more : list field) (rest : list block) (pep_num : Z) :
  run d o d' ->
  children d = field_list classes (pep_field :: more) :: rest ->
  contains "rfc2822" classes = true ->
  rule_name pep_field = "pep" ->
  int (body_astext pep_field) = Some pep_num ->
  noted_pending d' = noted_pending (after_pep_number d)
  /\ exists header', children d' = header' :: tl (children (after_pep_number d)).
Proof.
  intros Hrun Hc Htag Hname Hint.
  assert (Hbase : exists first, children (after_pep_number d)
                                = first :: tl (children (after_pep_number d))).
  { destruct (children_after_pep_number d _ _ Hc) as [-> | ->]; eauto. }
  destruct Hbase as [first Hbase].
  destruct Hrun;
    repeat match goal with
      | Hx : children ?d = _, Hy : children ?d = _ |- _ =>
          rewrite Hx in Hy; inversion Hy; subst; clear Hy
      end;
    try congruence;
    try match goal with
      | Hn : forall c h, field_list _ _ <> field_list c h |- _ =>
          exfalso; eapply Hn; reflexivity
      end;
    try (unfold with_header; rewrite Hbase; simpl);
    try (split; [reflexivity | now eauto]).
Qed.

(** C9, as the code has it: on a PEP file that starts with an rfc2822
    header whose first field is named "pep", if the value of that field
    parses to 0 then one run of [apply] inserts one pending node at
    position 1 and notes it once; if it parses to another number, no
    pending node is inserted or noted. *)
Theorem pep_zero_registered_once (d : document) (classes : list string)
        (pep_field : field) (more : list field) (rest : list block) (pep_num : Z) :
  path_match_pep (source d) = true ->
  children d = field_list classes (pep_field :: more) :: rest ->
  contains "rfc2822" classes = true ->
  rule_name pep_field = "pep" ->
  int (body_astext pep_field) = Some pep_num ->
  (pep_num = 0%Z ->
   (exists header', children (snd (apply d)) = header' :: PEPZero :: rest)
   /\ noted_pending (snd (apply d)) = noted_pending d ++ [PEPZero])
  /\ (pep_num <> 0%Z ->
      (exists header', children (snd (apply d)) = header' :: rest)
      /\ noted_pending (snd (apply d)) = noted_pending d).
Proof.
  intros Hpath Hc Htag Hname Hint.
  destruct (run_registers d _ _ classes pep_field more rest pep_num
              (apply_run d Hpath) Hc Htag Hname Hint) as [Hnoted [header' Hch]].
  assert (Hnum : pep_number d = Some pep_num).
  { unfold pep_number, header_fields. now rewrite Hc. }
  unfold after_pep_number in Hnoted, Hch. rewrite Hnum in Hnoted, Hch.
  split.
  - intros ->. simpl in Hnoted, Hch. rewrite Hc in Hch. simpl in Hch. eauto.
  - intros Hnz. destruct pep_num; [congruence| |];
      rewrite Hc in Hch; simpl in Hch; eauto.
Qed.

(** *** The tree when the structural error is raised *)

Lemma body_fault_cases (f : field) :
  body_fault f = MultipleElements f \/ body_fault f = NotParagraph f.
Proof. unfold body_fault. destruct (field_body f) as [|n [|m rest]]; auto. Qed.

(** C2, as the code has it: [apply] does not roll back.  When it raises
    the structural error from one of the first four checks, the tree is as
    before the transform.  When it raises "No title!", the tree differs at
    most by the pending node of PEP 0, which is already in place.  When it
    raises for a bad field body, the pending node of PEP 0 is in place,
    the fields before the offending field are already rewritten, the
    offending field and the fields after it are as before, and no field
    has been removed. *)
Theorem structural_error_leaves_partial_rewrites
        (d d' : document) (why : pep_fault field) :
  apply d = (Raised (PEPParsingError why), d') ->
  match why with
  | EmptyTree | NoRfc2822Header | NoPepHeader | PepNotInteger _ => d' = d
  | NoTitle => d' = after_pep_number d
  | MultipleElements f | NotParagraph f =>
      exists classes pre post rest,
        children d = field_list classes (pre ++ f :: post) :: rest
        /\ bad_body f = true
        /\ Forall (fun g => raised (process_field g) = None) pre
        /\ d' = with_header (after_pep_number d) classes
                  (map (fun g => now (process_field g)) pre ++ f :: post)
  end.
Proof.
  intros Happly.
  destruct (path_match_pep (source d)) eqn:Hpath.
  2:{ rewrite (apply_not_pep d Hpath) in Happly. discriminate. }
  pose proof (apply_run d Hpath) as Hrun. rewrite Happly in Hrun.
  simpl in Hrun.
  inversion Hrun as [ | | | | |
                    |
                    | ? classes pep_field more rest pep_num e Hc _ _ _ _ Hloop
                    | ]; subst; try reflexivity.
  destruct (visit_fields_stopped _ _ Hloop)
    as (pre & f & post & Hsplit & Hpre & Hf & Hvs).
  destruct (process_field_fault f why Hf) as (Hbad & Hwhy & Hnow).
  assert (Hd' : with_header (after_pep_number d) classes
                  (header_after_loop (pep_field :: more)
                                     (visit_fields (pep_field :: more)))
                = with_header (after_pep_number d) classes
                    (map (fun g => now (process_field g)) pre ++ f :: post)).
  { rewrite Hvs, Hsplit, header_after_stop, Hnow. reflexivity. }
  rewrite Hd'. rewrite Hsplit in Hc.
  destruct (body_fault_cases f) as [Hk | Hk]; rewrite Hk in Hwhy; subst why;
    exists classes, pre, post, rest; auto.
Qed.

(** *** When the structural error is raised *)

Lemma loop_raises_fault (header : list field) (why : pep_fault field) :
  loop_raised (visit_fields header) = Some (PEPParsingError why)
  <-> first_body_fault header = Some why
      /\ rewrites_before_fault header = true.
Proof.
  unfold first_body_fault.
  induction header as [|f rest IH]; simpl.
  - split; [discriminate | intros [Hf _]; discriminate].
  - destruct (bad_body f) eqn:Hbad.
    + rewrite (process_field_bad_body f Hbad). simpl.
      split.
      * intros Hr; inversion Hr; auto.
      * intros [Hr _]; inversion Hr; auto.
    + destruct (raised (process_field f)) as [e|] eqn:Hf; simpl; rewrite Hf.
      * split; [|intros [_ Hr]; discriminate].
        intros Hr; inversion Hr; subst.
        apply process_field_fault in Hf. destruct Hf as [Hf _]. congruence.
      * exact IH.
Qed.

Lemma run_preamble (d d' : document) (o : outcome) :
  run d o d' ->
  (forall classes rest, children d <> field_list classes [] :: rest) ->
  (exists why, preamble_fault d = Some why /\ o = Raised (PEPParsingError why))
  \/ (preamble_fault d = None
      /\ o = match loop_raised (visit_fields (header_fields d)) with
             | Some e => Raised e
             | None => Returned
             end).
Proof.
  intros Hrun Hfields. unfold preamble_fault, header_fields.
  destruct Hrun;
    repeat match goal with
      | Hc : children ?d = _ |- _ => rewrite Hc
      | Ht : contains "rfc2822" _ = _ |- _ => rewrite Ht
      | Hn : rule_name _ = "pep" |- _ => rewrite Hn
      | Hi : int _ = _ |- _ => rewrite Hi
      | Hs : second_is_title _ = _ |- _ => rewrite Hs
      | Hl : loop_raised _ = _ |- _ => rewrite Hl
      end; simpl; eauto.
  - destruct first; eauto. exfalso. eapply H1. reflexivity.
  - exfalso. eapply Hfields. eassumption.
  - apply String.eqb_neq in H2. rewrite H2. simpl. eauto.
Qed.

(** C6, as the code has it: on a PEP file whose header field list is not
    empty, [apply] raises the structural error [why] if and only if [why]
    is the first failing check among: empty document; no rfc2822 field
    list in front; first field not named "pep"; its value not an integer;
    fewer than two fields or second field not named "title"; or, these
    five passing, [why] is the fault of the first field whose non-empty
    body is not exactly one paragraph and the rewrite of no earlier field
    has raised another exception. *)
Theorem structural_error_iff_first_fault (d : document) (why : pep_fault field) :
  path_match_pep (source d) = true ->
  (forall classes rest, children d <> field_list classes [] :: rest) ->
  (exists d', apply d = (Raised (PEPParsingError why), d'))
  <-> (preamble_fault d = Some why
       \/ (preamble_fault d = None
           /\ first_body_fault (header_fields d) = Some why
           /\ rewrites_before_fault (header_fields d) = true)).
Proof.
  intros Hpath Hfields.
  pose proof (run_preamble d _ _ (apply_run d Hpath) Hfields) as Hcase.
  rewrite (surjective_pairing (apply d)).
  destruct Hcase as [(w & Hpre & Ho) | [Hpre Ho]]; rewrite Hpre, Ho.
  - split.
    + intros [d' Heq]. inversion Heq. auto.
    + intros [Heq | [Heq _]]; [|discriminate].
      inversion Heq. eauto.
  - split.
    + intros [d' Heq]. right. split; [reflexivity|].
      apply loop_raises_fault.
      destruct (loop_raised _); inversion Heq; reflexivity.
    + intros [Heq | [_ Hloop]]; [discriminate|].
      apply loop_raises_fault in Hloop. rewrite Hloop. eauto.
Qed.

(** *** The rewrite of PEP number lists *)

Lemma pep_list_name_only (f : field) :
  is_pep_list_name f = true ->
  is_masked_name f = false /\ is_thread_name f = false
  /\ is_unneeded_name f = false.
Proof.
  unfold is_unneeded_name, is_masked_name, is_thread_name, is_pep_list_name.
  generalize (rule_name f) as x. intros x Hx.
  apply contains_In in Hx. simpl in Hx.
  destruct Hx as [<-|[<-|[<-|[]]]]; repeat split; reflexivity.
Qed.

Lemma thread_name_only (f : field) :
  is_thread_name f = true ->
  is_masked_name f = false /\ is_unneeded_name f = false.
Proof.
  unfold is_unneeded_name, is_masked_name, is_thread_name.
  generalize (rule_name f) as x. intros x Hx.
  apply contains_In in Hx. simpl in Hx.
  destruct Hx as [<-|[<-|[]]]; split; reflexivity.
Qed.


Lemma pep_links_fail (tokens : list string) :
  Exists (fun t => int t = None) tokens ->
  pep_links tokens = Raise ValueError.
Proof.
  induction 1 as [t rest Ht | t rest _ IH]; simpl.
  - now rewrite Ht.
  - destruct (int t); [|reflexivity]. now rewrite IH.
Qed.

(** Dropping the last element of [new_body] leaves the links separated by
    ", ", with no separator after the last link. *)
Lemma removelast_with_separator (links : list node) :
  removelast (flat_map with_separator links) = separated (Text ", ") links.
Proof.
  induction links as [|l [|l' rest] IH]; try reflexivity.
  change (flat_map with_separator (l :: l' :: rest))
    with (l :: Text ", " :: flat_map with_separator (l' :: rest)).
  change (separated (Text ", ") (l :: l' :: rest))
    with (l :: Text ", " :: separated (Text ", ") (l' :: rest)).
  rewrite <- IH. reflexivity.
Qed.

Lemma body_astext_paragraph (f : field) (para : list node) :
  field_body f = [paragraph para] ->
  body_astext f = join "" (map astext para).
Proof. unfold body_astext. now intros ->. Qed.

Lemma next_isspace_blank_free (t rest : string) :
  any_char isspace t = false ->
  next_isspace (t +:+ String "," rest) = false.
Proof.
  destruct t as [|c t]; simpl; [reflexivity|].
  intros Ht. now apply orb_false_iff in Ht.
Qed.

Lemma re_split_one_token (in_blanks : bool) (t : string) :
  any_char isspace t = false -> re_split_from in_blanks t = [t].
Proof.
  revert in_blanks. induction t as [|c t IH]; intros b; [reflexivity|].
  simpl. intros Ht. apply orb_false_iff in Ht. destruct Ht as [Hc Ht].
  rewrite Hc, (IH false Ht).
  replace (next_isspace t) with false.
  - now rewrite andb_false_r.
  - destruct t as [|x t]; [reflexivity|].
    simpl in Ht. apply orb_false_iff in Ht. simpl. now destruct Ht as [-> _].
Qed.








(** No token of the split contains a blank. *)
Lemma re_split_from_blank_free (in_blanks : bool) (s : string) :
  Forall (fun t => any_char isspace t = false) (re_split_from in_blanks s).
Proof.
  revert in_blanks. induction s as [|x s IH]; intros b; cbn [re_split_from].
  - repeat constructor.
  - destruct (isspace x) eqn:Hx.
    + destruct b; [apply IH | constructor; [reflexivity | apply IH]].
    + destruct (Ascii.eqb x "," && next_isspace s).
      * constructor; [reflexivity | apply IH].
      * specialize (IH false).
        destruct (re_split_from false s) as [|h t].
        -- repeat constructor. simpl. now rewrite Hx.
        -- inversion IH as [|? ? Hh Ht]; subst.
           constructor; [|exact Ht]. simpl. now rewrite Hx, Hh.
Qed.

(** A token that is not a number ends the rewrite with ValueError, before
    the paragraph is assigned. *)
Lemma pep_numbers_bad_token (f : field) (para : list node) :
  field_body f = [paragraph para] ->
  is_pep_list_name f = true ->
  Exists (fun t => int t = None)
         (re_split_comma_blank (join "" (map astext para))) ->
  process_field f = mk_visit f false (Some ValueError).
Proof.
  intros Hb Hname Hbad.
  destruct (pep_list_name_only f Hname) as (Hm & Ht & _).
  rewrite (process_field_paragraph f para Hb), Hm, Ht, Hname.
  rewrite (body_astext_paragraph f para Hb).
  now rewrite (pep_links_fail _ Hbad).
Qed.


(** *** The rewrite of thread links *)

Lemma thread_node_relabelled (n n' : node) :
  thread_node n = Ok n' -> relabelled n n'.
Proof.
  destruct n as [s|[uri|] kids|kids|tag kids|tag kids]; simpl;
    try (intros Hn; inversion Hn; subst; apply keep_other; discriminate);
    try discriminate.
  destruct (startswith "https://mail.python.org" uri) eqn:Hhost.
  2:{ intros Hn; inversion Hn; subst. now apply keep_foreign. }
  destruct kids as [|text more]; [discriminate|].
  unfold _pretty_thread.
  destruct (_process_list_url (str text)) as [[list_name url_type]|e] eqn:Hurl.
  - simpl. intros Hn; inversion Hn; subst. now apply relabel.
  - destruct (process_list_url_raises _ _ Hurl) as [-> | ->]; simpl;
      [|discriminate].
    intros Hn; inversion Hn; subst. now apply keep_unrecognised.
Qed.

Lemma thread_nodes_relabelled (para : list node) :
  snd (thread_nodes para) = None ->
  Forall2 relabelled para (fst (thread_nodes para)).
Proof.
  induction para as [|n rest IH]; simpl; [constructor|].
  destruct (thread_node n) as [n'|e] eqn:Hn; [|discriminate].
  destruct (thread_nodes rest) as [rest' r]. simpl in *.
  intros Hr. constructor; [now apply thread_node_relabelled | auto].
Qed.

(** C5, as the code has it: when [apply] returns normally on a PEP file,
    a discussions-to or resolution field whose body is one paragraph is
    still in the header, and each child of its paragraph is as before
    unless it is a reference whose refuri starts with
    "https://mail.python.org" and whose first child, read as a string, has
    one of the recognised shapes; the first child of such a reference is
    replaced by the label "{ListName} {kind}" classified from that first
    child itself, not from the refuri. *)
Theorem thread_links_relabelled_from_their_text
        (d d' : document) (f : field) (para : list node) :
  path_match_pep (source d) = true ->
  apply d = (Returned, d') ->
  In f (header_fields d) ->
  field_body f = [paragraph para] ->
  is_thread_name f = true ->
  exists para',
    In (with_paragraph f para') (header_fields d')
    /\ Forall2 relabelled para para'.
Proof.
  intros Hpath Happly Hin Hb Hname.
  destruct (apply_returned d d' Hpath Happly) as [Hall ->].
  rewrite Forall_forall in Hall. pose proof (Hall f Hin) as Hr.
  destruct (thread_name_only f Hname) as [Hm Hu].
  rewrite (process_field_paragraph f para Hb), Hm, Hname in Hr. simpl in Hr.
  exists (fst (thread_nodes para)). split.
  - replace (with_paragraph f (fst (thread_nodes para)))
      with (now (process_field f))
      by now rewrite (process_field_paragraph f para Hb), Hm, Hname.
    apply (in_map (fun g => now (process_field g))), filter_In.
    split; [exact Hin|]. unfold removed. now rewrite Hu.
  - now apply thread_nodes_relabelled.
Qed.

End Loop.

(** ** Strings without a slash, and last characters *)

Section Strings.

Variable c : ascii.

Lemma has_char_app (a b : string) :
  has_char c (a +:+ b) = has_char c a || has_char c b.
Proof.
  induction a as [|x a IH]; simpl; [reflexivity|].
  now rewrite IH, orb_assoc.
Qed.

Lemma split_parts_free (s p : string) :
  In p (split c s) -> has_char c p = false.
Proof.
  revert p. induction s as [|x s IH]; simpl; intros p Hin.
  - destruct Hin as [<- | []]. reflexivity.
  - destruct (Ascii.eqb x c) eqn:Hx.
    + destruct Hin as [<- | Hin]; [reflexivity | now apply IH].
    + destruct (split c s) as [|h t].
      * destruct Hin as [<- | []]. simpl. now rewrite Hx.
      * destruct Hin as [<- | Hin].
        -- simpl. rewrite Hx. apply IH. now left.
        -- apply IH. now right.
Qed.

Lemma split_free (s : string) :
  has_char c s = false -> split c s = [s].
Proof.
  induction s as [|x s IH]; simpl; [reflexivity|].
  intros Hs. apply orb_false_iff in Hs. destruct Hs as [Hx Hs].
  now rewrite Hx, (IH Hs).
Qed.

Lemma map_chars_free (f : ascii -> ascii) (s : string) :
  (forall x, Ascii.eqb x c = false -> Ascii.eqb (f x) c = false) ->
  has_char c s = false -> has_char c (map_chars f s) = false.
Proof.
  intros Hf. induction s as [|x s IH]; simpl; [reflexivity|].
  intros Hs. apply orb_false_iff in Hs. destruct Hs as [Hx Hs].
  now rewrite (Hf x Hx), (IH Hs).
Qed.

Lemma lstrip_free (p : ascii -> bool) (s : string) :
  has_char c s = false -> has_char c (lstrip p s) = false.
Proof.
  induction s as [|x s IH]; simpl; [reflexivity|].
  intros Hs. destruct (p x); [|exact Hs].
  apply orb_false_iff in Hs. now apply IH.
Qed.

Lemma rstrip_free (p : ascii -> bool) (s : string) :
  has_char c s = false -> has_char c (rstrip p s) = false.
Proof.
  induction s as [|x s IH]; simpl; [reflexivity|].
  intros Hs. apply orb_false_iff in Hs. destruct Hs as [Hx Hs].
  specialize (IH Hs).
  destruct (rstrip p s) as [|y r].
  - destruct (p x); simpl; [reflexivity | now rewrite Hx].
  - simpl in *. now rewrite Hx.
Qed.

Lemma strip_by_free (p : ascii -> bool) (s : string) :
  has_char c s = false -> has_char c (strip_by p s) = false.
Proof. intros Hs. now apply rstrip_free, lstrip_free. Qed.

Lemma take_free (n : nat) (s : string) :
  has_char c s = false -> has_char c (take n s) = false.
Proof.
  revert n. induction s as [|x s IH]; intros [|n]; simpl; try reflexivity.
  intros Hs. apply orb_false_iff in Hs. destruct Hs as [Hx Hs].
  now rewrite Hx, (IH n Hs).
Qed.

Lemma removesuffix_free (suf s : string) :
  has_char c s = false -> has_char c (removesuffix suf s) = false.
Proof.
  intros Hs. unfold removesuffix.
  destruct (endswith suf s); [now apply take_free | exact Hs].
Qed.

Lemma replace_from_free (skip : nat) (old new s : string) :
  has_char c new = false ->
  has_char c s = false -> has_char c (replace_from skip old new s) = false.
Proof.
  intros Hnew. revert skip.
  induction s as [|x s IH]; intros skip; [reflexivity|].
  intros Hs. pose proof Hs as Hs'. simpl in Hs'.
  apply orb_false_iff in Hs'. destruct Hs' as [Hx Hr].
  cbn [replace_from].
  destruct skip as [|k]; [|now apply IH].
  destruct (String.prefix old (String x s)).
  - rewrite has_char_app, Hnew. now apply IH.
  - simpl. rewrite Hx. now apply IH.
Qed.

(** *** Last characters *)

Lemma last_char_app (a : string) (x : ascii) (b : string) :
  last_char (a +:+ String x b) = last_char (String x b).
Proof.
  induction a as [|y a IH]; [reflexivity|].
  change (String y a +:+ String x b) with (String y (a +:+ String x b)).
  cbn [last_char]. rewrite IH.
  destruct a; reflexivity.
Qed.

Lemma last_char_map_chars (f : ascii -> ascii) (s : string) :
  last_char (map_chars f s) = option_map f (last_char s).
Proof.
  induction s as [|x [|y s] IH]; try reflexivity.
  exact IH.
Qed.

Lemma last_char_lstrip (p : ascii -> bool) (s : string) (x : ascii) :
  last_char s = Some x -> p x = false -> last_char (lstrip p s) = Some x.
Proof.
  intros Hlast Hx. induction s as [|y s IH]; [discriminate|].
  cbn [lstrip]. destruct (p y) eqn:Hy; [|exact Hlast].
  destruct s as [|z s].
  - simpl in Hlast. congruence.
  - apply IH. exact Hlast.
Qed.

Lemma rstrip_last_kept (p : ascii -> bool) (s : string) (x : ascii) :
  last_char s = Some x -> p x = false -> rstrip p s = s.
Proof.
  intros Hlast Hx. induction s as [|y s IH]; [reflexivity|].
  cbn [rstrip]. destruct s as [|z s].
  - simpl in *. inversion Hlast; subst. now rewrite Hx.
  - rewrite (IH Hlast). reflexivity.
Qed.

Lemma last_char_strip_by (p : ascii -> bool) (s : string) (x : ascii) :
  last_char s = Some x -> p x = false -> last_char (strip_by p s) = Some x.
Proof.
  intros Hlast Hx. unfold strip_by.
  pose proof (last_char_lstrip p s x Hlast Hx) as Hl.
  now rewrite (rstrip_last_kept p _ x Hl Hx).
Qed.

End Strings.

(** ** The classifier on its own labels *)

Section Classifier.

Context `{Collaborators}.

Lemma case_change_keeps_slash_out (x : ascii) :
  Ascii.eqb x "/" = false ->
  Ascii.eqb (to_lower x) "/" = false /\ Ascii.eqb (to_upper x) "/" = false.
Proof.
  destruct x as [[] [] [] [] [] [] [] []]; intros Hx;
    try discriminate Hx; split; reflexivity.
Qed.

Lemma lower_free (s : string) :
  has_char "/" s = false -> has_char "/" (lower s) = false.
Proof.
  apply map_chars_free. intros x Hx.
  now apply case_change_keeps_slash_out.
Qed.

Lemma title_from_free (previous_is_cased : bool) (s : string) :
  has_char "/" s = false ->
  has_char "/" (title_from previous_is_cased s) = false.
Proof.
  revert previous_is_cased.
  induction s as [|x s IH]; intros b; simpl; [reflexivity|].
  intros Hs. apply orb_false_iff in Hs. destruct Hs as [Hx Hs].
  destruct (case_change_keeps_slash_out x Hx) as [Hlo Hup].
  destruct (iscased x); simpl.
  - destruct b; [rewrite Hlo | rewrite Hup]; now apply IH.
  - rewrite Hx. now apply IH.
Qed.

(** The name that the classifier returns for a part of the URL. *)
Lemma fixed_up_name_free (suf p : string) :
  has_char "/" p = false ->
  has_char "/" (replace "Sig" "SIG" (title (removesuffix suf p))) = false.
Proof.
  intros Hp. apply replace_from_free; [reflexivity|].
  now apply title_from_free, removesuffix_free.
Qed.

Lemma plain_name_free (p : string) :
  has_char "/" p = false ->
  has_char "/" (replace "Sig" "SIG" (title p)) = false.
Proof.
  intros Hp. apply replace_from_free; [reflexivity|].
  now apply title_from_free.
Qed.

Lemma item_free (s : string) (i : nat) (p : string) :
  item (split "/" s) i = Ok p -> has_char "/" p = false.
Proof.
  unfold item. destruct (nth_error (split "/" s) i) as [q|] eqn:Hq;
    [|discriminate].
  intros Hp; inversion Hp; subst.
  eapply split_parts_free, nth_error_In, Hq.
Qed.

Ltac ok_cases :=
  repeat match goal with
    | Hr : Ok _ = Ok _ |- _ => inversion Hr; subst; clear Hr
    | Hr : Raise _ = Ok _ |- _ => discriminate Hr
    | Hr : bind ?m _ = Ok _ |- _ =>
        let Hm := fresh "Hm" in destruct m eqn:Hm; simpl in Hr
    | Hr : (if ?b then _ else _) = Ok _ |- _ =>
        let Hb := fresh "Hb" in destruct b eqn:Hb
    | Hr : (let '(_, _) := ?p in _) = Ok _ |- _ => destruct p
    end.

(** A successful classification returns a name without slash and one of
    the three kinds. *)
Lemma process_list_url_ok (list_url list_name url_type : string) :
  _process_list_url list_url = Ok (list_name, url_type) ->
  has_char "/" list_name = false
  /\ In url_type ["list"; "message"; "thread"].
Proof.
  unfold _process_list_url. intros Hok. ok_cases;
    repeat match goal with
      | Hi : item (split "/" _) _ = Ok _ |- _ => apply item_free in Hi
      | Hc : contains _ ["message"; "thread"] = true |- _ =>
          apply contains_In in Hc
      end;
    (split; [now (apply fixed_up_name_free || apply plain_name_free)|]).
  all: simpl in *.
  all: repeat match goal with
         | |- context [if ?b then _ else _] => destruct b
         | Hk : _ || _ = true |- _ =>
             apply orb_true_iff in Hk; destruct Hk as [Hk | Hk]
         | Hk : String.eqb _ _ = true |- _ => apply String.eqb_eq in Hk; subst
         | Hk : false = true |- _ => discriminate Hk
         end.
  all: tauto.
Qed.

(** The normalised label is one part, and its last character is the last
    character of the kind. *)
Lemma label_parts (list_name url_type : string) (x : ascii) :
  has_char "/" list_name = false ->
  has_char "/" url_type = false ->
  last_char (lower url_type) = Some x ->
  url_type <> "" ->
  isspace x = false -> Ascii.eqb "/" x = false ->
  exists part,
    split "/" (strip_char "/" (strip (lower (list_name +:+ " " +:+ url_type))))
    = [part]
    /\ last_char part = Some x.
Proof.
  intros Hname Hkind Hlast Hne Hsp Hsl.
  set (label := list_name +:+ " " +:+ url_type).
  exists (strip_char "/" (strip (lower label))). split.
  - apply split_free. unfold strip_char, strip.
    apply strip_by_free, strip_by_free, lower_free.
    unfold label. rewrite !has_char_app, Hname, Hkind. reflexivity.
  - unfold strip_char, strip.
    apply last_char_strip_by; [|exact Hsl].
    apply last_char_strip_by; [|exact Hsp].
    unfold lower in *. rewrite last_char_map_chars.
    rewrite last_char_map_chars in Hlast.
    unfold label. destruct url_type as [|k r]; [congruence|].
    replace (list_name +:+ " " +:+ String k r)
      with ((list_name +:+ " ") +:+ String k r).
    + now rewrite last_char_app.
    + clear. induction list_name as [|y a IH]; simpl; [reflexivity|].
      now rewrite IH.
Qed.

Lemma marker_absent (marker part : string) (x y : ascii) :
  last_char part = Some x -> last_char marker = Some y -> x <> y ->
  contains marker [part] = false.
Proof.
  intros Hp Hm Hxy. unfold contains. simpl. rewrite orb_false_r.
  apply String.eqb_neq. intros ->. congruence.
Qed.

Lemma label_is_not_a_list_url (list_name url_type : string) :
  has_char "/" list_name = false ->
  In url_type ["list"; "message"; "thread"] ->
  _process_list_url (list_name +:+ " " +:+ url_type) = Raise ValueError.
Proof.
  intros Hname Hkind.
  assert (Hparts : exists part x,
             split "/" (strip_char "/"
                          (strip (lower (list_name +:+ " " +:+ url_type))))
             = [part]
             /\ last_char part = Some x
             /\ In x ["t"; "e"; "d"]%char).
  { simpl in Hkind.
    destruct Hkind as [<-|[<-|[<-|[]]]].
    - destruct (label_parts list_name "list" "t" Hname eq_refl eq_refl
                              ltac:(discriminate) eq_refl eq_refl)
        as (part & Hp & Hl).
      exists part, "t"%char. split; [exact Hp|]. split; [exact Hl|].
      cbn [In]. auto.
    - destruct (label_parts list_name "message" "e" Hname eq_refl eq_refl
                              ltac:(discriminate) eq_refl eq_refl)
        as (part & Hp & Hl).
      exists part, "e"%char. split; [exact Hp|]. split; [exact Hl|].
      cbn [In]. auto.
    - destruct (label_parts list_name "thread" "d" Hname eq_refl eq_refl
                              ltac:(discriminate) eq_refl eq_refl)
        as (part & Hp & Hl).
      exists part, "d"%char. split; [exact Hp|]. split; [exact Hl|].
      cbn [In]. auto. }
  destruct Hparts as (part & x & Hsplit & Hlast & Hx).
  unfold _process_list_url. rewrite Hsplit.
  assert (Hm : forall marker y,
             last_char marker = Some y -> ~ In y ["t"; "e"; "d"]%char ->
             contains marker [part] = false).
  { intros marker y Hy Hny. apply (marker_absent marker part x y Hlast Hy).
    intros ->. contradiction. }
  rewrite (Hm "archives" "s"%char), (Hm "mailman3" "3"%char),
    (Hm "pipermail" "l"%char), (Hm "listinfo" "o"%char);
    try reflexivity;
    simpl; intros [Hd|[Hd|[Hd|[]]]]; discriminate.
Qed.

(** A text with none of the four markers among its parts is returned as it
    is: this is the failure that [_pretty_thread] catches. *)
Lemma pretty_thread_without_marker (text : node) :
  let parts := split "/" (strip_char "/" (strip (lower (str text)))) in
  contains "archives" parts = false ->
  contains "mailman3" parts = false ->
  contains "pipermail" parts = false ->
  contains "listinfo" parts = false ->
  _pretty_thread text = Ok text.
Proof.
  intros parts Ha Hm Hp Hl.
  unfold _pretty_thread, _process_list_url. fold parts.
  now rewrite Ha, Hm, Hp, Hl.
Qed.

(** C8: when the classifier accepts a URL and produces the label
    "{ListName} {kind}", the label itself matches none of the four shape
    detectors, so [_pretty_thread] on the label fails soft and returns the
    label unchanged. *)
Theorem label_is_a_fixed_point (list_url list_name url_type : string) :
  _process_list_url list_url = Ok (list_name, url_type) ->
  let label := list_name +:+ " " +:+ url_type in
  _pretty_thread (Text list_url) = Ok (Text label)
  /\ _process_list_url label = Raise ValueError
  /\ _pretty_thread (Text label) = Ok (Text label).
Proof.
  intros Hok label.
  destruct (process_list_url_ok _ _ _ Hok) as [Hname Hkind].
  pose proof (label_is_not_a_list_url list_name url_type Hname Hkind) as Hsoft.
  fold label in Hsoft.
  unfold _pretty_thread. cbn [str]. rewrite Hok, Hsoft. auto.
Qed.

End Classifier.

(** ** The transform on sample documents *)

Import Sample.

(** C1: a thread link to "https://mail.python.org/archives" has the marker
    "archives" but no segment two places after it; the classifier raises
    IndexError, which [_pretty_thread] does not catch, and the exception
    leaves [apply]. *)
Theorem short_archive_url_raises_index_error :
  forall H : Collaborators,
    _process_list_url "https://mail.python.org/archives" = Raise IndexError
    /\ _pretty_thread (Text "https://mail.python.org/archives") = Raise IndexError
    /\ fst (apply short_archives) = Raised IndexError.
Proof. intros H. repeat split; reflexivity. Qed.

Lemma apply_is_noop_off_pep_files_witness :
  path_match_pep (source readme) = false
  /\ fst (@apply host readme) = Returned /\ snd (@apply host readme) = readme.
Proof.
  split; [reflexivity|].
  apply (@apply_is_noop_off_pep_files host readme). reflexivity.
Defined.

Lemma empty_body_field_is_untouched_witness :
  In (named "Content-Type" []) (header_fields pep8)
  /\ field_body (named "Content-Type" []) = []
  /\ @process_field host (named "Content-Type" [])
     = mk_visit (named "Content-Type" []) false None
  /\ In (named "Content-Type" []) (header_fields (snd (@apply host pep8))).
Proof.
  assert (Hin : In (named "Content-Type" []) (header_fields pep8)).
  { simpl. tauto. }
  split; [exact Hin|]. split; [reflexivity|].
  apply (@empty_body_field_is_untouched host pep8 _ Hin). reflexivity.
Defined.

Lemma surviving_fields_keep_their_order_witness :
  path_match_pep (source pep8) = true
  /\ @apply host pep8 = (Returned, pep8_after)
  /\ header_fields pep8_after
     = map (fun f => now (@process_field host f))
           (filter (fun f => negb (removed f)) (header_fields pep8))
  /\ map field_name (header_fields pep8_after)
     = map field_name (filter (fun f => negb (removed f)) (header_fields pep8))
  /\ Forall (fun f' => is_unneeded_name f' = true -> field_body f' = [])
            (header_fields pep8_after)
  /\ (forall f,
         In f (header_fields pep8) ->
         is_masked_name f = false -> is_thread_name f = false ->
         is_pep_list_name f = false -> is_unneeded_name f = false ->
         now (@process_field host f) = f /\ In f (header_fields pep8_after)).
Proof.
  split; [reflexivity|]. split; [reflexivity|].
  apply (@surviving_fields_keep_their_order host pep8 pep8_after); reflexivity.
Defined.

(** C4 as stated fails: a version field with an empty body is skipped by the
    loop before it could be marked, and is still in the header when [apply]
    returns. *)
Lemma empty_version_field_survives :
  path_match_pep (source empty_version) = true
  /\ fst (@apply host empty_version) = Returned
  /\ is_unneeded_name (named "Version" []) = true
  /\ In (named "Version" []) (header_fields (snd (@apply host empty_version))).
Proof. repeat split; try reflexivity. simpl. tauto. Qed.

Lemma pep_zero_registered_once_witness :
  path_match_pep (source pep0) = true
  /\ children pep0
     = field_list ["rfc2822"] [plain "PEP" "0"; plain "Title" "Index"]
         :: [body_element (paragraph [Text "Abstract"])]
  /\ contains "rfc2822" ["rfc2822"] = true
  /\ rule_name (plain "PEP" "0") = "pep"
  /\ int (body_astext (plain "PEP" "0")) = Some 0%Z
  /\ (0%Z = 0%Z ->
      (exists header',
          children (snd (@apply host pep0))
          = header' :: PEPZero :: [body_element (paragraph [Text "Abstract"])])
      /\ noted_pending (snd (@apply host pep0)) = noted_pending pep0 ++ [PEPZero])
  /\ (0%Z <> 0%Z ->
      (exists header',
          children (snd (@apply host pep0))
          = header' :: [body_element (paragraph [Text "Abstract"])])
      /\ noted_pending (snd (@apply host pep0)) = noted_pending pep0).
Proof.
  repeat (split; [reflexivity|]).
  apply (@pep_zero_registered_once host pep0 ["rfc2822"] (plain "PEP" "0")
           [plain "Title" "Index"] [body_element (paragraph [Text "Abstract"])] 0%Z);
    reflexivity.
Defined.

(** C9 as stated fails: the same header in a file that is not named as a PEP
    has a first field that parses to 0, yet [apply] returns before it reads
    the header and registers nothing. *)
Lemma pep_zero_off_pep_file_registers_nothing :
  path_match_pep (source readme) = false
  /\ header_fields readme = [plain "PEP" "0"; plain "Title" "Index"]
  /\ pep_number readme = Some 0%Z
  /\ snd (@apply host readme) = readme
  /\ noted_pending (snd (@apply host readme)) = []
  /\ ~ In PEPZero (children (snd (@apply host readme))).
Proof.
  repeat split; try reflexivity.
  simpl. intros [Hx | [Hx | []]]; discriminate.
Qed.

Lemma structural_error_leaves_partial_rewrites_witness :
  @apply host late_fault
  = (Raised (PEPParsingError (MultipleElements two_paragraphs)), late_fault_after)
  /\ exists classes pre post rest,
      children late_fault = field_list classes (pre ++ two_paragraphs :: post) :: rest
      /\ bad_body two_paragraphs = true
      /\ Forall (fun g => raised (@process_field host g) = None) pre
      /\ late_fault_after
         = with_header (after_pep_number late_fault) classes
             (map (fun g => now (@process_field host g)) pre
                ++ two_paragraphs :: post).
Proof.
  split; [reflexivity|].
  apply (@structural_error_leaves_partial_rewrites host late_fault late_fault_after
           (MultipleElements two_paragraphs)).
  reflexivity.
Defined.

(** C2 as stated fails: on PEP 0 with a body of two paragraphs in its fourth
    field, [apply] raises the structural error after it has inserted and
    noted the pending node and has rewritten the replaces field. *)
Lemma late_fault_leaves_the_tree_changed :
  fst (@apply host late_fault)
  = Raised (PEPParsingError (MultipleElements two_paragraphs))
  /\ snd (@apply host late_fault) <> late_fault
  /\ nth_error (children (snd (@apply host late_fault))) 1 = Some PEPZero
  /\ noted_pending (snd (@apply host late_fault)) = [PEPZero]
  /\ nth_error (header_fields (snd (@apply host late_fault))) 2
     = Some (named "Replaces"
               [paragraph [link "https://peps.python.org/pep-0101/" "101";
                           Text ", ";
                           link "https://peps.python.org/pep-0102/" "102"]]).
Proof.
  repeat split; try reflexivity.
  intros Heq. apply (f_equal noted_pending) in Heq. discriminate Heq.
Qed.

Lemma structural_error_iff_first_fault_witness :
  path_match_pep (source late_fault) = true
  /\ (forall classes rest, children late_fault <> field_list classes [] :: rest)
  /\ ((exists d', @apply host late_fault
                  = (Raised (PEPParsingError (MultipleElements two_paragraphs)), d'))
      <-> (@preamble_fault late_fault = Some (MultipleElements two_paragraphs)
           \/ (@preamble_fault late_fault = None
               /\ first_body_fault (header_fields late_fault)
                  = Some (MultipleElements two_paragraphs)
               /\ @rewrites_before_fault host (header_fields late_fault) = true))).
Proof.
  assert (Hfields : forall classes rest,
             children late_fault <> field_list classes [] :: rest).
  { intros classes rest. discriminate. }
  split; [reflexivity|]. split; [exact Hfields|].
  apply (@structural_error_iff_first_fault host late_fault
           (MultipleElements two_paragraphs)); [reflexivity | exact Hfields].
Defined.

(** C6 as stated fails: the fourth field has a body of two paragraphs, but
    the third holds the token "101,102", and the ValueError of its rewrite
    ends [apply] before the fourth field is checked. *)
Lemma bad_token_hides_bad_body :
  path_match_pep (source bad_token_first) = true
  /\ In two_paragraphs (header_fields bad_token_first)
  /\ bad_body two_paragraphs = true
  /\ fst (@apply host bad_token_first) = Raised ValueError.
Proof. repeat split; try reflexivity. simpl. tauto. Qed.



Lemma thread_links_relabelled_from_their_text_witness :
  path_match_pep (source pep8) = true
  /\ @apply host pep8 = (Returned, pep8_after)
  /\ In (named "Discussions-To" [paragraph [link archive_url archive_url]])
        (header_fields pep8)
  /\ field_body (named "Discussions-To" [paragraph [link archive_url archive_url]])
     = [paragraph [link archive_url archive_url]]
  /\ is_thread_name (named "Discussions-To" [paragraph [link archive_url archive_url]])
     = true
  /\ exists para',
      In (with_paragraph
            (named "Discussions-To" [paragraph [link archive_url archive_url]])
            para')
         (header_fields pep8_after)
      /\ Forall2 (@relabelled host) [link archive_url archive_url] para'.
Proof.
  assert (Hin : In (named "Discussions-To" [paragraph [link archive_url archive_url]])
                   (header_fields pep8)).
  { simpl. tauto. }
  split; [reflexivity|]. split; [reflexivity|]. split; [exact Hin|].
  split; [reflexivity|]. split; [reflexivity|].
  apply (@thread_links_relabelled_from_their_text host pep8 pep8_after
           (named "Discussions-To" [paragraph [link archive_url archive_url]])
           [link archive_url archive_url]);
    try reflexivity.
  exact Hin.
Defined.

(** C5 as stated fails: the target of the link is a thread of Python-Dev,
    which the classifier labels "Python-Dev thread", but [apply] classifies
    the text of the link, "the thread", which has no recognised shape, and
    leaves the link as it was. *)
Lemma link_text_is_classified_not_its_target :
  startswith "https://mail.python.org" archive_url = true
  /\ label_of_target (link archive_url "the thread") = Some "Python-Dev thread"
  /\ In (named "Discussions-To" [paragraph [link archive_url "the thread"]])
        (header_fields titled_link)
  /\ fst (@apply host titled_link) = Returned
  /\ snd (@apply host titled_link) = titled_link.
Proof. repeat split; try reflexivity. simpl. tauto. Qed.

Lemma label_is_a_fixed_point_witness :
  _process_list_url archive_url = Ok ("Python-Dev", "thread")
  /\ @_pretty_thread host (Text archive_url) = Ok (Text "Python-Dev thread")
  /\ _process_list_url "Python-Dev thread" = Raise ValueError
  /\ @_pretty_thread host (Text "Python-Dev thread") = Ok (Text "Python-Dev thread").
Proof.
  split; [reflexivity|].
  apply (@label_is_a_fixed_point host archive_url "Python-Dev" "thread").
  reflexivity.
Defined.

(** * Further properties *)

(** ** Outcomes of the classifier *)

Section ClassifierOutcomes.

Context `{Collaborators}.

Lemma contains_index (x : string) (l : list string) :
  contains x l = true -> exists i, index x l = Some i /\ (i < length l)%nat.
Proof.
  unfold contains. induction l as [|y l IH]; simpl; [discriminate|].
  rewrite String.eqb_sym.
  destruct (String.eqb y x).
  - intros _. exists 0%nat. split; [reflexivity | lia].
  - simpl. intros Hc. destruct (IH Hc) as (i & -> & Hi).
    exists (S i). split; [reflexivity | lia].
Qed.

Lemma item_in_range (parts : list string) (i : nat) :
  (i < length parts)%nat -> exists p, item parts i = Ok p.
Proof.
  intros Hi. unfold item.
  destruct (nth_error parts i) as [p|] eqn:Hp; [eauto|].
  apply nth_error_None in Hp. lia.
Qed.

Lemma item_out_of_range (parts : list string) (i : nat) :
  (length parts <= i)%nat -> item parts i = Raise IndexError.
Proof.
  intros Hi. unfold item.
  now rewrite (proj2 (nth_error_None parts i) Hi).
Qed.

(** The classifier, read through [list_name_index]. *)
Lemma classify_by_index (list_url : string) :
  match list_name_index (url_parts list_url) with
  | None => _process_list_url list_url = Raise ValueError
  | Some i =>
      if (i <? length (url_parts list_url))%nat
      then exists list_name url_type,
          _process_list_url list_url = Ok (list_name, url_type)
      else _process_list_url list_url = Raise IndexError
  end.
Proof.
  unfold _process_list_url, list_name_index. fold (url_parts list_url).
  set (parts := url_parts list_url).
  destruct (contains "archives" parts) eqn:Ha.
  { destruct (contains_index _ _ Ha) as (i & Hi & _).
    unfold index_plus. rewrite Hi. cbn [option_map bind].
    destruct (i + 2 <? length parts)%nat eqn:Hlt.
    - apply Nat.ltb_lt in Hlt.
      destruct (item_in_range parts _ Hlt) as [p ->]. cbn [bind].
      destruct (6 <? length parts)%nat eqn:H6; [|cbn [bind]; eauto].
      apply Nat.ltb_lt in H6.
      destruct (item_in_range parts _ H6) as [p6 ->]. cbn [bind].
      destruct (contains p6 ["message"; "thread"]); cbn [bind]; eauto.
    - apply Nat.ltb_ge in Hlt. now rewrite (item_out_of_range parts _ Hlt). }
  destruct (contains "mailman3" parts) eqn:Hm.
  { destruct (contains_index _ _ Hm) as (i & Hi & _).
    unfold index_plus. rewrite Hi. cbn [option_map bind].
    destruct (i + 2 <? length parts)%nat eqn:Hlt.
    - apply Nat.ltb_lt in Hlt.
      destruct (item_in_range parts _ Hlt) as [p ->]. cbn [bind]. eauto.
    - apply Nat.ltb_ge in Hlt. now rewrite (item_out_of_range parts _ Hlt). }
  destruct (contains "pipermail" parts) eqn:Hp.
  { destruct (contains_index _ _ Hp) as (i & Hi & _).
    unfold index_plus. rewrite Hi. cbn [option_map bind].
    destruct (i + 1 <? length parts)%nat eqn:Hlt.
    - apply Nat.ltb_lt in Hlt.
      destruct (item_in_range parts _ Hlt) as [p ->]. cbn [bind]. eauto.
    - apply Nat.ltb_ge in Hlt. now rewrite (item_out_of_range parts _ Hlt). }
  destruct (contains "listinfo" parts) eqn:Hl.
  { destruct (contains_index _ _ Hl) as (i & Hi & _).
    unfold index_plus. rewrite Hi. cbn [option_map bind].
    destruct (i + 1 <? length parts)%nat eqn:Hlt.
    - apply Nat.ltb_lt in Hlt.
      destruct (item_in_range parts _ Hlt) as [p ->]. cbn [bind]. eauto.
    - apply Nat.ltb_ge in Hlt. now rewrite (item_out_of_range parts _ Hlt). }
  reflexivity.
Qed.

Lemma list_name_index_none (parts : list string) :
  list_name_index parts = None
  <-> contains "archives" parts = false /\ contains "mailman3" parts = false
      /\ contains "pipermail" parts = false /\ contains "listinfo" parts = false.
Proof.
  unfold list_name_index. split.
  - repeat match goal with
      | |- context [if contains ?m parts then _ else _] =>
          let Hc := fresh "Hc" in
          destruct (contains m parts) eqn:Hc;
          [destruct (contains_index _ _ Hc) as (i & -> & _); discriminate|]
      end. auto.
  - intros (-> & -> & -> & ->). reflexivity.
Qed.

(** X1: the classifier raises ValueError, the failure that [_pretty_thread]
    catches, exactly when none of "archives", "mailman3", "pipermail" and
    "listinfo" is a segment of the normalised URL. *)
Theorem value_error_iff_no_marker (list_url : string) :
  _process_list_url list_url = Raise ValueError
  <-> contains "archives" (url_parts list_url) = false
      /\ contains "mailman3" (url_parts list_url) = false
      /\ contains "pipermail" (url_parts list_url) = false
      /\ contains "listinfo" (url_parts list_url) = false.
Proof.
  rewrite <- list_name_index_none.
  pose proof (classify_by_index list_url) as Hc.
  destruct (list_name_index (url_parts list_url)) as [i|].
  - split; [|discriminate]. intros Hv.
    destruct (i <? length (url_parts list_url))%nat.
    + destruct Hc as (n & k & Hc). congruence.
    + congruence.
  - split; auto.
Qed.

(** X2: when a marker is present, the classifier succeeds exactly when the
    segment that should name the list exists, and raises IndexError exactly
    when the URL ends before it. *)
Theorem index_error_iff_name_missing (list_url : string) :
  (_process_list_url list_url = Raise IndexError
   <-> exists i, list_name_index (url_parts list_url) = Some i
                 /\ (length (url_parts list_url) <= i)%nat)
  /\ ((exists list_name url_type,
          _process_list_url list_url = Ok (list_name, url_type))
      <-> exists i, list_name_index (url_parts list_url) = Some i
                    /\ (i < length (url_parts list_url))%nat).
Proof.
  pose proof (classify_by_index list_url) as Hc.
  destruct (list_name_index (url_parts list_url)) as [i|].
  - destruct (i <? length (url_parts list_url))%nat eqn:Hlt.
    + apply Nat.ltb_lt in Hlt. destruct Hc as (n & k & Hc). split; split.
      * congruence.
      * intros (j & Hj & Hle). inversion Hj; subst. lia.
      * eauto.
      * eauto.
    + apply Nat.ltb_ge in Hlt. split; split.
      * eauto.
      * auto.
      * intros (n & k & Hok). congruence.
      * intros (j & Hj & Hle). inversion Hj; subst. lia.
  - split; split.
    + congruence.
    + intros (j & Hj & _). discriminate.
    + intros (n & k & Hok). congruence.
    + intros (j & Hj & _). discriminate.
Qed.

End ClassifierOutcomes.

(** ** What the classifier returns, and what it ignores *)

Section ClassifierResults.

Context `{Collaborators}.

Lemma item_ok (parts : list string) (i : nat) (p : string) :
  item parts i = Ok p -> nth_error parts i = Some p.
Proof.
  unfold item. destruct (nth_error parts i); intros Hp; now inversion Hp.
Qed.

(** X3: a successful classification returns a list name without "/" and one
    of the kinds "list", "message", "thread".  The kind "thread" comes only
    from the archives shape with "thread" as seventh segment; the kind
    "message" comes from the archives shape with "message" as seventh
    segment, or from the pipermail shape with more than six segments. *)
Theorem classified_kind (list_url list_name url_type : string) :
  _process_list_url list_url = Ok (list_name, url_type) ->
  In url_type ["list"; "message"; "thread"]
  /\ has_char "/" list_name = false
  /\ (url_type = "thread" ->
      contains "archives" (url_parts list_url) = true
      /\ nth_error (url_parts list_url) 6 = Some "thread")
  /\ (url_type = "message" ->
      (contains "archives" (url_parts list_url) = true
       /\ nth_error (url_parts list_url) 6 = Some "message")
      \/ (contains "archives" (url_parts list_url) = false
          /\ contains "mailman3" (url_parts list_url) = false
          /\ contains "pipermail" (url_parts list_url) = true
          /\ (6 < length (url_parts list_url))%nat)).
Proof.
  intros Hok.
  destruct (process_list_url_ok _ _ _ Hok) as [Hname Hkind].
  split; [exact Hkind|]. split; [exact Hname|].
  unfold _process_list_url in Hok. fold (url_parts list_url) in Hok.
  set (parts := url_parts list_url) in *.
  destruct (contains "archives" parts) eqn:Ha.
  { destruct (index_plus "archives" parts 2) as [i|]; [|discriminate].
    cbn [bind] in Hok.
    destruct (item parts i) as [p|]; [|discriminate]. cbn [bind] in Hok.
    destruct (6 <? length parts)%nat.
    - destruct (item parts 6) as [p6|] eqn:H6; [|discriminate].
      apply item_ok in H6. cbn [bind] in Hok.
      destruct (contains p6 ["message"; "thread"]); cbn [bind] in Hok;
        inversion Hok; subst; split; intros Hk; subst; try discriminate; auto.
    - cbn [bind] in Hok. inversion Hok; subst.
      split; intros Hk; discriminate. }
  destruct (contains "mailman3" parts) eqn:Hm.
  { destruct (index_plus "mailman3" parts 2) as [i|]; [|discriminate].
    cbn [bind] in Hok.
    destruct (item parts i) as [p|]; [|discriminate]. cbn [bind] in Hok.
    inversion Hok; subst. split; intros Hk; discriminate. }
  destruct (contains "pipermail" parts) eqn:Hp.
  { destruct (index_plus "pipermail" parts 1) as [i|]; [|discriminate].
    cbn [bind] in Hok.
    destruct (item parts i) as [p|]; [|discriminate]. cbn [bind] in Hok.
    destruct (6 <? length parts)%nat eqn:H6; inversion Hok; subst;
      split; intros Hk; try discriminate.
    apply Nat.ltb_lt in H6. right. auto. }
  destruct (contains "listinfo" parts) eqn:Hl; [|discriminate].
  destruct (index_plus "listinfo" parts 1) as [i|]; [|discriminate].
  cbn [bind] in Hok.
  destruct (item parts i) as [p|]; [|discriminate]. cbn [bind] in Hok.
  inversion Hok; subst. split; intros Hk; discriminate.
Qed.

(** X5: [_pretty_thread] has three outcomes: the text unchanged, when the
    classifier raised ValueError; a new text "{ListName} {kind}", when the
    classifier succeeded; IndexError, when the classifier raised it.  No
    other exception leaves it. *)
Theorem pretty_thread_outcomes (text : node) :
  (_process_list_url (str text) = Raise ValueError
   /\ _pretty_thread text = Ok text)
  \/ (exists list_name url_type,
         _process_list_url (str text) = Ok (list_name, url_type)
         /\ _pretty_thread text = Ok (Text (list_name +:+ " " +:+ url_type)))
  \/ (_process_list_url (str text) = Raise IndexError
      /\ _pretty_thread text = Raise IndexError).
Proof.
  unfold _pretty_thread.
  destruct (_process_list_url (str text)) as [[list_name url_type]|e] eqn:Hurl.
  - right. left. eauto.
  - destruct (process_list_url_raises _ _ Hurl) as [-> | ->]; auto.
Qed.

(** *** Case and surrounding blanks *)

Lemma lower_after_upper (c : ascii) : to_lower (to_upper c) = to_lower c.
Proof. destruct c as [[] [] [] [] [] [] [] []]; reflexivity. Qed.

Lemma isspace_lower (c : ascii) : isspace (to_lower c) = isspace c.
Proof. destruct c as [[] [] [] [] [] [] [] []]; reflexivity. Qed.

Lemma lower_upper (s : string) : lower (map_chars to_upper s) = lower s.
Proof.
  unfold lower. induction s as [|c s IH]; simpl; [reflexivity|].
  now rewrite lower_after_upper, IH.
Qed.

Lemma map_chars_app (f : ascii -> ascii) (a b : string) :
  map_chars f (a +:+ b) = map_chars f a +:+ map_chars f b.
Proof. induction a as [|c a IH]; simpl; [reflexivity | now rewrite IH]. Qed.

Lemma all_blank_lower (s : string) :
  all_chars isspace (lower s) = all_chars isspace s.
Proof.
  unfold lower. induction s as [|c s IH]; simpl; [reflexivity|].
  now rewrite isspace_lower, IH.
Qed.

Lemma lstrip_prefix (p : ascii -> bool) (a s : string) :
  all_chars p a = true -> lstrip p (a +:+ s) = lstrip p s.
Proof.
  induction a as [|c a IH]; simpl; [reflexivity|].
  intros Ha. apply andb_true_iff in Ha. destruct Ha as [-> Ha]. auto.
Qed.

Lemma rstrip_all (p : ascii -> bool) (b : string) :
  all_chars p b = true -> rstrip p b = EmptyString.
Proof.
  induction b as [|c b IH]; simpl; [reflexivity|].
  intros Hb. apply andb_true_iff in Hb. destruct Hb as [-> Hb].
  now rewrite (IH Hb).
Qed.

Lemma rstrip_suffix (p : ascii -> bool) (s b : string) :
  all_chars p b = true -> rstrip p (s +:+ b) = rstrip p s.
Proof.
  intros Hb. induction s as [|c s IH].
  - simpl. now apply rstrip_all.
  - change (String c s +:+ b) with (String c (s +:+ b)).
    cbn [rstrip]. now rewrite IH.
Qed.

Lemma strip_by_suffix (p : ascii -> bool) (s b : string) :
  all_chars p b = true -> strip_by p (s +:+ b) = strip_by p s.
Proof.
  intros Hb. unfold strip_by. induction s as [|c s IH].
  - simpl. induction b as [|x b IHb]; [reflexivity|].
    simpl in Hb. apply andb_true_iff in Hb. destruct Hb as [Hx Hb].
    cbn [lstrip]. rewrite Hx. auto.
  - change (String c s +:+ b) with (String c (s +:+ b)).
    cbn [lstrip]. destruct (p c); [exact IH|].
    change (String c (s +:+ b)) with (String c s +:+ b).
    now apply rstrip_suffix.
Qed.

Lemma strip_by_around (p : ascii -> bool) (a s b : string) :
  all_chars p a = true -> all_chars p b = true ->
  strip_by p (a +:+ s +:+ b) = strip_by p s.
Proof.
  intros Ha Hb. unfold strip_by. rewrite (lstrip_prefix p a _ Ha).
  now apply strip_by_suffix.
Qed.

(** X4: the classifier ignores the case of ASCII letters and the blanks
    around the URL. *)
Theorem classifier_ignores_case_and_blanks (before after list_url : string) :
  all_chars isspace before = true ->
  all_chars isspace after = true ->
  _process_list_url (before +:+ map_chars to_upper list_url +:+ after)
  = _process_list_url list_url.
Proof.
  intros Hb Ha.
  assert (Hparts : url_parts (before +:+ map_chars to_upper list_url +:+ after)
                   = url_parts list_url).
  { unfold url_parts, strip, lower.
    rewrite !map_chars_app.
    fold (lower before) (lower after) (lower (map_chars to_upper list_url)).
    rewrite lower_upper.
    rewrite strip_by_around; [reflexivity | |]; now rewrite all_blank_lower. }
  unfold _process_list_url.
  fold (url_parts (before +:+ map_chars to_upper list_url +:+ after)).
  fold (url_parts list_url). now rewrite Hparts.
Qed.

End ClassifierResults.

(** ** What [apply] touches, and when it fails *)

Section Outcomes.

Context `{Collaborators}.

Lemma after_pep_number_cases (d : document) :
  (after_pep_number d = d /\ pep_number d <> Some 0%Z)
  \/ (after_pep_number d = register_pep_zero d /\ pep_number d = Some 0%Z).
Proof.
  unfold after_pep_number.
  destruct (pep_number d) as [[| |]|]; auto; left; split; auto; discriminate.
Qed.

Lemma with_header_children (d : document) (classes : list string)
      (fields : list field) (first : block) (rest : list block) :
  children d = first :: rest ->
  children (with_header d classes fields) = field_list classes fields :: rest
  /\ noted_pending (with_header d classes fields) = noted_pending d
  /\ source (with_header d classes fields) = source d.
Proof. intros Hc. unfold with_header. rewrite Hc. auto. Qed.

(** X6: in every outcome, [apply] leaves the source name and the elements
    after the header as they were.  Either the whole tree is unchanged, or
    the document starts with an rfc2822 field list that keeps its classes
    and whose fields alone may differ, with one pending node inserted at
    position 1 and noted once exactly when the PEP number is 0. *)
Theorem apply_touches_only_the_header (d : document) :
  source (snd (apply d)) = source d
  /\ (snd (apply d) = d
      \/ exists classes fields fields' rest,
          children d = field_list classes fields :: rest
          /\ contains "rfc2822" classes = true
          /\ ((pep_number d <> Some 0%Z
               /\ children (snd (apply d)) = field_list classes fields' :: rest
               /\ noted_pending (snd (apply d)) = noted_pending d)
              \/ (pep_number d = Some 0%Z
                  /\ children (snd (apply d))
                     = field_list classes fields' :: PEPZero :: rest
                  /\ noted_pending (snd (apply d))
                     = noted_pending d ++ [PEPZero]))).
Proof.
  destruct (path_match_pep (source d)) eqn:Hpath.
  2:{ rewrite (apply_not_pep d Hpath). auto. }
  generalize (apply_run d Hpath).
  generalize (fst (apply d)) (snd (apply d)). intros o d' Hrun.
  assert (Hreg : forall first rest,
             children d = first :: rest ->
             children (register_pep_zero d) = first :: PEPZero :: rest
             /\ noted_pending (register_pep_zero d) = noted_pending d ++ [PEPZero]
             /\ source (register_pep_zero d) = source d).
  { intros first rest Hc. simpl. rewrite Hc. auto. }
  destruct Hrun as [ | | | | |
                    | d classes pep_field more rest pep_num Hc Htag
                    | d classes pep_field more rest pep_num e Hc Htag
                    | d classes pep_field more rest pep_num Hc Htag ];
    try (split; [reflexivity | now left]).
  - destruct (after_pep_number_cases d) as [[-> Hn] | [-> Hz]].
    + split; [reflexivity | now left].
    + destruct (Hreg _ _ Hc) as (Hch & Hno & Hso).
      split; [exact Hso|]. right.
      exists classes, (pep_field :: more), (pep_field :: more), rest.
      split; [exact Hc|]. split; [exact Htag|]. right. repeat split; congruence.
  - destruct (after_pep_number_cases d) as [[-> Hn] | [-> Hz]].
    + destruct (with_header_children d classes
                  (header_after_loop (pep_field :: more)
                                     (visit_fields (pep_field :: more)))
                  _ _ Hc) as (Hch & Hno & Hso).
      split; [exact Hso|]. right.
      exists classes, (pep_field :: more),
        (header_after_loop (pep_field :: more) (visit_fields (pep_field :: more))),
        rest.
      split; [exact Hc|]. split; [exact Htag|]. left. repeat split; congruence.
    + destruct (Hreg _ _ Hc) as (Hch & Hno & Hso).
      destruct (with_header_children (register_pep_zero d) classes
                  (header_after_loop (pep_field :: more)
                                     (visit_fields (pep_field :: more)))
                  _ _ Hch) as (Hch' & Hno' & Hso').
      split; [congruence|]. right.
      exists classes, (pep_field :: more),
        (header_after_loop (pep_field :: more) (visit_fields (pep_field :: more))),
        rest.
      split; [exact Hc|]. split; [exact Htag|]. right. repeat split; congruence.
  - destruct (after_pep_number_cases d) as [[-> Hn] | [-> Hz]].
    + destruct (with_header_children d classes
                  (remove_marked (visit_fields (pep_field :: more)))
                  _ _ Hc) as (Hch & Hno & Hso).
      split; [exact Hso|]. right.
      exists classes, (pep_field :: more),
        (remove_marked (visit_fields (pep_field :: more))), rest.
      split; [exact Hc|]. split; [exact Htag|]. left. repeat split; congruence.
    + destruct (Hreg _ _ Hc) as (Hch & Hno & Hso).
      destruct (with_header_children (register_pep_zero d) classes
                  (remove_marked (visit_fields (pep_field :: more)))
                  _ _ Hch) as (Hch' & Hno' & Hso').
      split; [congruence|]. right.
      exists classes, (pep_field :: more),
        (remove_marked (visit_fields (pep_field :: more))), rest.
      split; [exact Hc|]. split; [exact Htag|]. right. repeat split; congruence.
Qed.

(** *** When [apply] returns *)

Lemma loop_completes_iff (header : list field) :
  loop_raised (visit_fields header) = None
  <-> Forall (fun f => raised (process_field f) = None) header.
Proof.
  split; [apply visit_fields_completed|].
  induction 1 as [|f rest Hf _ IH]; simpl; [reflexivity|].
  rewrite Hf. simpl. now rewrite Hf.
Qed.

(** X7: on a PEP file whose header field list is not empty, [apply] returns
    normally exactly when the five checks on the document and its first two
    fields pass and the visit of every field ends without exception. *)
Theorem apply_returns_iff (d : document) :
  path_match_pep (source d) = true ->
  (forall classes rest, children d <> field_list classes [] :: rest) ->
  (fst (apply d) = Returned
   <-> preamble_fault d = None
       /\ Forall (fun f => raised (process_field f) = None) (header_fields d)).
Proof.
  intros Hpath Hfields.
  destruct (run_preamble d _ _ (apply_run d Hpath) Hfields)
    as [(w & Hpre & Ho) | [Hpre Ho]]; rewrite Hpre, Ho.
  - split; [discriminate | intros [Hx _]; discriminate].
  - rewrite <- loop_completes_iff.
    destruct (loop_raised (visit_fields (header_fields d))); split;
      try discriminate; auto.
    intros [_ Hx]. discriminate.
Qed.

(** *** Where the other exceptions come from *)

Lemma pep_links_bad_token (tokens : list string) (e : error) :
  pep_links tokens = Raise e -> Exists (fun t => int t = None) tokens.
Proof.
  induction tokens as [|t rest IH]; simpl; [discriminate|].
  destruct (int t) eqn:Ht; [|intros _; now left].
  destruct (pep_links rest) as [more|e'] eqn:Hrest; simpl; [discriminate|].
  intros Hr. inversion Hr; subst. right. now apply IH.
Qed.

Lemma thread_node_key_error (n : node) :
  thread_node n = Raise KeyError -> missing_refuri n = true.
Proof.
  destruct n as [s|[uri|] kids|kids|tag kids|tag kids]; simpl; try discriminate; auto.
  destruct (startswith _ uri); [|discriminate].
  destruct kids as [|text more]; [discriminate|].
  destruct (_pretty_thread text) eqn:Hp; simpl; [discriminate|].
  apply pretty_thread_raises in Hp. subst. discriminate.
Qed.

Lemma thread_node_index_error (n : node) :
  thread_node n = Raise IndexError -> short_thread_link n.
Proof.
  destruct n as [s|[uri|] kids|kids|tag kids|tag kids]; simpl; try discriminate.
  destruct (startswith _ uri) eqn:Hhost; [|discriminate].
  intros Hr. exists uri, kids. split; [reflexivity|]. split; [exact Hhost|].
  destruct kids as [|text more]; [now left|]. right.
  exists text, more. split; [reflexivity|].
  unfold _pretty_thread in Hr.
  destruct (_process_list_url (str text)) as [[a b]|e] eqn:Hurl;
    [discriminate|].
  destruct (process_list_url_raises _ _ Hurl) as [-> | ->];
    [discriminate | reflexivity].
Qed.

Lemma thread_nodes_raised_at (para : list node) (e : error) :
  snd (thread_nodes para) = Some e ->
  Exists (fun n => thread_node n = Raise e) para.
Proof.
  induction para as [|n rest IH]; simpl; [discriminate|].
  destruct (thread_node n) as [n'|e'] eqn:Hn.
  - destruct (thread_nodes rest) as [rest' r]. simpl in *.
    intros Hr. right. auto.
  - simpl. intros Hr. inversion Hr; subst. now left.
Qed.

(** The visits that raise something else than the structural error. *)
Lemma process_field_raised (f : field) (e : error) :
  raised (process_field f) = Some e ->
  (exists why, e = PEPParsingError why)
  \/ exists para,
      field_body f = [paragraph para]
      /\ ((is_thread_name f = true
           /\ Exists (fun n => thread_node n = Raise e) para)
          \/ (is_pep_list_name f = true /\ e = ValueError
              /\ Exists (fun t => int t = None)
                        (re_split_comma_blank (join "" (map astext para))))).
Proof.
  destruct (bad_body_cases f) as [Hb | [[para Hb] | Hb]].
  - rewrite (process_field_empty f Hb). discriminate.
  - rewrite (process_field_paragraph f para Hb).
    destruct (is_masked_name f); [discriminate|].
    destruct (is_thread_name f).
    + simpl. intros Hr. right. exists para. split; [exact Hb|]. left.
      split; [reflexivity|]. now apply thread_nodes_raised_at.
    + destruct (is_pep_list_name f).
      * rewrite (body_astext_paragraph f para Hb).
        destruct (pep_links _) eqn:Hl; simpl; [discriminate|].
        intros Hr. inversion Hr; subst.
        right. exists para. split; [exact Hb|]. right.
        split; [reflexivity|].
        split; [eapply pep_links_raises; eauto | eapply pep_links_bad_token; eauto].
      * destruct (is_unneeded_name f); discriminate.
  - rewrite (process_field_bad_body f Hb). simpl.
    intros Hr. inversion Hr. eauto.
Qed.

(** An exception of [apply] that is not the structural error comes from the
    visit of a field, or from [header[0]] on an empty field list. *)
Lemma apply_raised_in_field (d : document) (e : error) :
  fst (apply d) = Raised e ->
  (forall why, e <> PEPParsingError why) ->
  (e = IndexError /\ exists classes rest, children d = field_list classes [] :: rest)
  \/ exists f, In f (header_fields d) /\ raised (process_field f) = Some e.
Proof.
  intros Hraised Hother.
  destruct (path_match_pep (source d)) eqn:Hpath.
  2:{ rewrite (apply_not_pep d Hpath) in Hraised. discriminate. }
  pose proof (apply_run d Hpath) as Hrun. rewrite Hraised in Hrun.
  inversion Hrun as [ | | | ? classes rest Hc | |
                    |
                    | ? classes pep_field more rest pep_num ? Hc _ _ _ _ Hloop
                    | ]; subst;
    try (exfalso; eapply Hother; reflexivity).
  - left. eauto.
  - right.
    destruct (visit_fields_stopped _ _ Hloop) as (pre & f & post & Hs & _ & Hf & _).
    exists f. split; [|exact Hf].
    unfold header_fields. rewrite Hc, Hs. apply in_or_app. right. now left.
Qed.

(** X8: when [apply] raises ValueError, some replaces, superseded-by or
    requires field has a one-paragraph body one of whose tokens does not
    parse as an integer. *)
Theorem value_error_comes_from_a_pep_number (d : document) :
  fst (apply d) = Raised ValueError ->
  exists f para,
    In f (header_fields d)
    /\ is_pep_list_name f = true
    /\ field_body f = [paragraph para]
    /\ Exists (fun t => int t = None)
              (re_split_comma_blank (join "" (map astext para))).
Proof.
  intros Hraised.
  destruct (apply_raised_in_field d ValueError Hraised) as
    [[Hx _] | (f & Hin & Hf)]; [discriminate | discriminate |].
  destruct (process_field_raised f _ Hf) as
    [[why Hx] | (para & Hb & [[_ Hex] | (Hname & _ & Hex)])];
    [discriminate | |].
  - exfalso. apply Exists_exists in Hex. destruct Hex as (n & _ & Hn).
    apply thread_node_raises in Hn. destruct Hn; discriminate.
  - exists f, para. auto.
Qed.

(** X9: when [apply] raises KeyError, some discussions-to or resolution
    field has a one-paragraph body that contains a reference without
    refuri. *)
Theorem key_error_comes_from_a_link_without_refuri (d : document) :
  fst (apply d) = Raised KeyError ->
  exists f para,
    In f (header_fields d)
    /\ is_thread_name f = true
    /\ field_body f = [paragraph para]
    /\ Exists (fun n => missing_refuri n = true) para.
Proof.
  intros Hraised.
  destruct (apply_raised_in_field d KeyError Hraised) as
    [[Hx _] | (f & Hin & Hf)]; [discriminate | discriminate |].
  destruct (process_field_raised f _ Hf) as
    [[why Hx] | (para & Hb & [[Hname Hex] | (_ & Hx & _)])];
    [discriminate | | discriminate].
  exists f, para. repeat split; auto.
  apply Exists_exists in Hex. destruct Hex as (n & Hin' & Hn).
  apply Exists_exists. exists n. split; [exact Hin'|].
  now apply thread_node_key_error.
Qed.

(** X10: when [apply] raises IndexError, either the header is an empty field
    list, or some discussions-to or resolution field has a one-paragraph
    body that contains a reference to the mailing-list host without child,
    or whose first child has a marker but not the segment that should name
    the list. *)
Theorem index_error_comes_from_a_short_link (d : document) :
  fst (apply d) = Raised IndexError ->
  (exists classes rest, children d = field_list classes [] :: rest)
  \/ exists f para,
      In f (header_fields d)
      /\ is_thread_name f = true
      /\ field_body f = [paragraph para]
      /\ Exists short_thread_link para.
Proof.
  intros Hraised.
  destruct (apply_raised_in_field d IndexError Hraised) as
    [[_ Hx] | (f & Hin & Hf)]; [discriminate | now left |].
  right.
  destruct (process_field_raised f _ Hf) as
    [[why Hx] | (para & Hb & [[Hname Hex] | (_ & Hx & _)])];
    [discriminate | | discriminate].
  exists f, para. repeat split; auto.
  apply Exists_exists in Hex. destruct Hex as (n & Hin' & Hn).
  apply Exists_exists. exists n. split; [exact Hin'|].
  now apply thread_node_index_error.
Qed.

End Outcomes.

(** ** The rewrites, field by field *)

Section Rewrites.

Context `{Collaborators}.

Lemma masked_name_only (f : field) :
  is_masked_name f = true ->
  is_thread_name f = false /\ is_pep_list_name f = false
  /\ is_unneeded_name f = false.
Proof.
  unfold is_unneeded_name, is_masked_name, is_thread_name, is_pep_list_name.
  generalize (rule_name f) as x. intros x Hx.
  apply contains_In in Hx. simpl in Hx.
  destruct Hx as [<-|[<-|[<-|[<-|[]]]]]; repeat split; reflexivity.
Qed.

(** A field that [apply] visited without marking it is in the header when
    [apply] returns, as its visit left it. *)
Lemma visited_field_is_kept (d d' : document) (f : field) :
  path_match_pep (source d) = true ->
  apply d = (Returned, d') ->
  In f (header_fields d) ->
  is_unneeded_name f = false ->
  In (now (process_field f)) (header_fields d').
Proof.
  intros Hpath Happly Hin Hu.
  destruct (apply_returned d d' Hpath Happly) as [_ ->].
  apply (in_map (fun g => now (process_field g))), filter_In.
  split; [exact Hin|]. unfold removed. now rewrite Hu.
Qed.

(** X11: when [apply] returns normally on a PEP file, an author,
    bdfl-delegate, pep-delegate or sponsor field whose body is one paragraph
    is still in the header; every reference among the children of its
    paragraph has been replaced by [_mask_email] of it, and the other
    children, their number and their order are as before. *)
Theorem author_references_are_masked
        (d d' : document) (f : field) (para : list node) :
  path_match_pep (source d) = true ->
  apply d = (Returned, d') ->
  In f (header_fields d) ->
  field_body f = [paragraph para] ->
  is_masked_name f = true ->
  exists para',
    In (with_paragraph f para') (header_fields d')
    /\ Forall2 (fun n n' =>
                  match n with
                  | reference _ _ => n' = _mask_email n
                  | _ => n' = n
                  end) para para'.
Proof.
  intros Hpath Happly Hin Hb Hname.
  destruct (masked_name_only f Hname) as (_ & _ & Hu).
  exists (map mask_node para). split.
  - replace (with_paragraph f (map mask_node para)) with (now (process_field f))
      by now rewrite (process_field_paragraph f para Hb), Hname.
    now apply (visited_field_is_kept d d').
  - clear. induction para as [|n rest IH]; simpl; constructor; auto.
    destruct n; reflexivity.
Qed.

(** *** Thread links keep their targets *)

Lemma thread_node_same_link (n n' : node) :
  thread_node n = Ok n' -> same_link n n'.
Proof.
  destruct n as [s|[uri|] kids|kids|tag kids|tag kids]; simpl;
    try (intros Hn; inversion Hn; subst; apply same_node);
    try discriminate.
  destruct (startswith "https://mail.python.org" uri).
  2:{ intros Hn; inversion Hn; subst. apply same_node. }
  destruct kids as [|text more]; [discriminate|].
  destruct (_pretty_thread text) as [text'|e]; simpl; [|discriminate].
  intros Hn; inversion Hn; subst. apply same_target.
Qed.

Lemma thread_nodes_same_link (para : list node) :
  Forall2 same_link para (fst (thread_nodes para)).
Proof.
  induction para as [|n rest IH]; simpl; [constructor|].
  destruct (thread_node n) as [n'|e] eqn:Hn.
  - destruct (thread_nodes rest) as [rest' r]. simpl in *.
    constructor; [now apply thread_node_same_link | exact IH].
  - simpl. constructor; [apply same_node|].
    clear. induction rest; constructor; auto using same_node.
Qed.

(** X12: whatever the outcome of its visit, a discussions-to or resolution
    field whose body is one paragraph keeps its name and is never marked for
    removal, and each child of its paragraph is as before or is a reference
    with the same refuri and the same children after the first: the rewrite
    changes nothing but the first child of references, also when it ends
    with an exception. *)
Theorem thread_rewrite_keeps_targets (f : field) (para : list node) :
  field_body f = [paragraph para] ->
  is_thread_name f = true ->
  exists para',
    now (process_field f) = with_paragraph f para'
    /\ marked (process_field f) = false
    /\ Forall2 same_link para para'.
Proof.
  intros Hb Hname.
  destruct (thread_name_only f Hname) as [Hm _].
  rewrite (process_field_paragraph f para Hb), Hm, Hname.
  exists (fst (thread_nodes para)).
  repeat split. apply thread_nodes_same_link.
Qed.

(** *** The text of a rewritten list of PEP numbers *)

Lemma pep_links_inv (tokens : list string) (new_body : list node) :
  pep_links tokens = Ok new_body ->
  exists links,
    Forall2 link_of tokens links /\ new_body = flat_map with_separator links.
Proof.
  revert new_body. induction tokens as [|t rest IH]; simpl; intros nb Hok.
  - inversion Hok. exists []. split; constructor.
  - destruct (int t) as [n|] eqn:Ht; [|discriminate].
    destruct (pep_links rest) as [more|e]; simpl in Hok; [|discriminate].
    inversion Hok; subst.
    destruct (IH more eq_refl) as (links & Hl & ->).
    exists (reference (Some (pep_url_format n)) [Text t] :: links).
    split; [|reflexivity].
    constructor; [|exact Hl]. exists n. auto.
Qed.

(** *** Null escapes *)

Lemma prefix_other_head (c x : ascii) (old s : string) :
  Ascii.eqb x c = false -> String.prefix (String c old) (String x s) = false.
Proof.
  intros Hx. simpl. destruct (ascii_dec c x) as [->|]; [|reflexivity].
  rewrite Ascii.eqb_refl in Hx. discriminate.
Qed.

Lemma replace_absent (c : ascii) (old new s : string) :
  has_char c s = false -> replace (String c old) new s = s.
Proof.
  unfold replace. induction s as [|x s IH]; [reflexivity|].
  intros Hs. simpl in Hs. apply orb_false_iff in Hs. destruct Hs as [Hx Hs].
  cbn [replace_from]. rewrite (prefix_other_head c x old s Hx).
  now rewrite (IH Hs).
Qed.

Lemma replace_single_free (c : ascii) (skip : nat) (s : string) :
  has_char c (replace_from skip (String c EmptyString) "" s) = false.
Proof.
  revert skip. induction s as [|x s IH]; intros skip; [reflexivity|].
  cbn [replace_from]. destruct skip as [|k]; [|apply IH].
  destruct (Ascii.eqb x c) eqn:Hx.
  - apply Ascii.eqb_eq in Hx. subst x.
    replace (String.prefix (String c "") (String c s)) with true.
    + simpl. apply IH.
    + simpl. destruct (ascii_dec c c); [now destruct s | congruence].
  - rewrite (prefix_other_head c x "" s Hx). simpl. rewrite Hx. apply IH.
Qed.

Lemma unescape_free (s : string) : has_char nul (unescape s) = false.
Proof. apply replace_single_free. Qed.

Lemma unescape_without_nul (s : string) :
  has_char nul s = false -> unescape s = s.
Proof.
  intros Hs. unfold unescape.
  now rewrite (replace_absent nul _ _ s Hs), (replace_absent nul _ _ s Hs),
    (replace_absent nul _ _ s Hs).
Qed.

Lemma join_free (c : ascii) (sep : string) (l : list string) :
  has_char c sep = false ->
  Forall (fun t => has_char c t = false) l ->
  has_char c (join sep l) = false.
Proof.
  intros Hsep. induction 1 as [|t rest Ht Hrest IH]; [reflexivity|].
  destruct rest as [|t' rest']; [exact Ht|].
  change (join sep (t :: t' :: rest'))
    with (t +:+ sep +:+ join sep (t' :: rest')).
  now rewrite !has_char_app, Ht, Hsep, IH.
Qed.

(** The text of a node has no null. *)
Lemma astext_free : forall n : node, has_char nul (astext n) = false.
Proof.
  fix IH 1. intros [s|uri kids|kids|tag kids|tag kids]; simpl.
  - apply unescape_free.
  - apply join_free; [reflexivity|].
    induction kids as [|k kids IHk]; constructor; [apply IH | exact IHk].
  - apply join_free; [reflexivity|].
    induction kids as [|k kids IHk]; constructor; [apply IH | exact IHk].
  - apply join_free; [reflexivity|].
    induction kids as [|k kids IHk]; constructor; [apply IH | exact IHk].
  - apply join_free; [reflexivity|].
    induction kids as [|k kids IHk]; constructor; [apply IH | exact IHk].
Qed.

Lemma re_split_from_free (c : ascii) (in_blanks : bool) (s : string) :
  has_char c s = false ->
  Forall (fun t => has_char c t = false) (re_split_from in_blanks s).
Proof.
  revert in_blanks. induction s as [|x s IH]; intros b Hs; cbn [re_split_from].
  - repeat constructor.
  - simpl in Hs. apply orb_false_iff in Hs. destruct Hs as [Hx Hs].
    destruct (isspace x).
    + destruct b; [now apply IH | constructor; [reflexivity | now apply IH]].
    + destruct (Ascii.eqb x "," && next_isspace s).
      * constructor; [reflexivity | now apply IH].
      * specialize (IH false Hs).
        destruct (re_split_from false s) as [|h t].
        -- repeat constructor. simpl. now rewrite Hx.
        -- inversion IH as [|? ? Hh Ht]; subst.
           constructor; [|exact Ht]. simpl. now rewrite Hx, Hh.
Qed.

(** The tokens read from a paragraph have no null. *)
Lemma paragraph_tokens_free (para : list node) :
  Forall (fun t => has_char nul t = false)
         (re_split_comma_blank (join "" (map astext para))).
Proof.
  apply re_split_from_free, join_free; [reflexivity|].
  induction para as [|k para IH]; constructor; [apply astext_free | exact IH].
Qed.

Lemma join_separated_links (tokens : list string) (links : list node) :
  Forall (fun t => has_char nul t = false) tokens ->
  Forall2 link_of tokens links ->
  join "" (map astext (separated (Text ", ") links)) = join ", " tokens.
Proof.
  intros Hfree Hlinks. revert Hfree.
  induction Hlinks as [|t l tokens links (n & _ & ->) Hrest IH];
    [reflexivity|].
  intros Hfree. inversion Hfree as [|? ? Ht Hfree']; subst.
  assert (Hlink : astext (reference (Some (pep_url_format n)) [Text t]) = t).
  { simpl. now apply unescape_without_nul. }
  destruct Hrest as [|t' l' tokens' links' Hl' Hrest'].
  - exact Hlink.
  - change (separated (Text ", ")
              (reference (Some (pep_url_format n)) [Text t] :: l' :: links'))
      with (reference (Some (pep_url_format n)) [Text t] :: Text ", "
              :: separated (Text ", ") (l' :: links')).
    change (join ", " (t :: t' :: tokens'))
      with (t +:+ ", " +:+ join ", " (t' :: tokens')).
    rewrite <- (IH Hfree').
    cbn [map]. rewrite Hlink.
    destruct links' as [|l'' links'']; reflexivity.
Qed.

Lemma re_split_token_then (in_blanks : bool) (t joined : string)
      (rest : list string) :
  any_char isspace t = false ->
  (forall b, re_split_from b joined = rest) ->
  re_split_from in_blanks (t +:+ ", " +:+ joined) = t :: rest.
Proof.
  intros Ht Hrest. revert in_blanks.
  induction t as [|c t IH]; intros b.
  - simpl. now rewrite Hrest.
  - simpl in Ht. apply orb_false_iff in Ht. destruct Ht as [Hc Ht].
    change (String c t +:+ ", " +:+ joined)
      with (String c (t +:+ ", " +:+ joined)).
    cbn [re_split_from]. rewrite Hc.
    change (t +:+ ", " +:+ joined) with (t +:+ String "," (" " +:+ joined)).
    rewrite (next_isspace_blank_free t _ Ht), andb_false_r.
    change (t +:+ String "," (" " +:+ joined)) with (t +:+ ", " +:+ joined).
    now rewrite (IH Ht false).
Qed.

(** Splitting the tokens joined by ", " gives the tokens back. *)
Lemma re_split_join (tokens : list string) :
  tokens <> [] ->
  Forall (fun t => any_char isspace t = false) tokens ->
  forall b, re_split_from b (join ", " tokens) = tokens.
Proof.
  intros Hne Hall. induction Hall as [|t rest Ht Hrest IH]; [congruence|].
  intros b. destruct rest as [|t' rest'].
  - simpl. now apply re_split_one_token.
  - change (join ", " (t :: t' :: rest'))
      with (t +:+ ", " +:+ join ", " (t' :: rest')).
    apply re_split_token_then; [exact Ht|].
    apply IH. discriminate.
Qed.

Lemma re_split_nonempty (in_blanks : bool) (s : string) :
  re_split_from in_blanks s <> [].
Proof.
  revert in_blanks. induction s as [|c s IH]; intros b; simpl; [discriminate|].
  destruct (isspace c).
  - destruct b; [apply IH | discriminate].
  - destruct (Ascii.eqb c "," && next_isspace s); [discriminate|].
    destruct (re_split_from false s); discriminate.
Qed.

Lemma body_astext_with_paragraph (f : field) (kids : list node) :
  body_astext (with_paragraph f kids) = join "" (map astext kids).
Proof. reflexivity. Qed.

(** X13: when the visit of a replaces, superseded-by or requires field with
    a one-paragraph body ends without exception, the text of the field is
    its tokens joined by ", ", and splitting that text again gives the same
    tokens: the rewrite normalises the separators and keeps the numbers as
    they were written. *)
Theorem pep_number_list_is_normalised (f : field) (para : list node) :
  field_body f = [paragraph para] ->
  is_pep_list_name f = true ->
  raised (process_field f) = None ->
  let tokens := re_split_comma_blank (join "" (map astext para)) in
  body_astext (now (process_field f)) = join ", " tokens
  /\ re_split_comma_blank (body_astext (now (process_field f))) = tokens.
Proof.
  intros Hb Hname Hr tokens.
  destruct (pep_list_name_only f Hname) as (Hm & Ht & _).
  rewrite (process_field_paragraph f para Hb), Hm, Ht, Hname in Hr |- *.
  rewrite (body_astext_paragraph f para Hb) in Hr |- *. fold tokens in Hr |- *.
  destruct (pep_links tokens) as [new_body|e] eqn:Hl; [|discriminate].
  destruct (pep_links_inv tokens new_body Hl) as (links & Hlinks & ->).
  cbn [now]. rewrite removelast_with_separator, body_astext_with_paragraph.
  rewrite (join_separated_links tokens links
             (paragraph_tokens_free para) Hlinks).
  split; [reflexivity|].
  apply re_split_join.
  - apply re_split_nonempty.
  - apply re_split_from_blank_free.
Qed.

End Rewrites.

(** ** [apply] when it raises, and [apply] once more *)

Section Again.

Context `{Collaborators}.

Lemma header_after_loop_cons (f : field) (rest : list field) :
  header_after_loop (f :: rest) (visit_fields (f :: rest))
  = now (process_field f)
      :: match raised (process_field f) with
         | Some _ => rest
         | None => header_after_loop rest (visit_fields rest)
         end.
Proof.
  unfold header_after_loop. simpl.
  destruct (raised (process_field f)); reflexivity.
Qed.

Lemma header_after_loop_names (header : list field) :
  map field_name (header_after_loop header (visit_fields header))
  = map field_name header.
Proof.
  induction header as [|f rest IH]; [reflexivity|].
  rewrite header_after_loop_cons. simpl. rewrite process_field_name.
  destruct (raised (process_field f)); [reflexivity | now rewrite IH].
Qed.

Lemma unneeded_field_unchanged (f : field) :
  is_unneeded_name f = true -> now (process_field f) = f.
Proof.
  intros Hu.
  destruct (bad_body_cases f) as [Hb | [[para Hb] | Hb]].
  - now rewrite (process_field_empty f Hb).
  - destruct (unneeded_name_only f Hu) as (Hm & Ht & Hp).
    now rewrite (process_field_paragraph f para Hb), Hm, Ht, Hp, Hu.
  - now rewrite (process_field_bad_body f Hb).
Qed.

Lemma unneeded_field_after_loop (header : list field) (f : field) :
  In f header -> is_unneeded_name f = true ->
  In f (header_after_loop header (visit_fields header)).
Proof.
  induction header as [|g rest IH]; [tauto|].
  rewrite header_after_loop_cons.
  intros [-> | Hin] Hu.
  - left. now apply unneeded_field_unchanged.
  - right. destruct (raised (process_field g)); auto.
Qed.

(** X14: when [apply] raises, whatever the exception, the header has the
    same fields under the same names in the same order, and every
    last-modified, content-type or version field is still there, unchanged:
    fields are removed only on a normal return.  Either no field has
    changed, or the exception comes from the visit of one field, the fields
    after it are as before and the fields before it are as their visits left
    them. *)
Theorem raising_apply_removes_nothing (d d' : document) (e : error) :
  apply d = (Raised e, d') ->
  map field_name (header_fields d') = map field_name (header_fields d)
  /\ (forall f,
         In f (header_fields d) -> is_unneeded_name f = true ->
         In f (header_fields d'))
  /\ (header_fields d' = header_fields d
      \/ exists pre f post,
          header_fields d = pre ++ f :: post
          /\ Forall (fun g => raised (process_field g) = None) pre
          /\ raised (process_field f) = Some e
          /\ header_fields d'
             = map (fun g => now (process_field g)) pre
                 ++ now (process_field f) :: post).
Proof.
  intros Happly.
  destruct (path_match_pep (source d)) eqn:Hpath.
  2:{ rewrite (apply_not_pep d Hpath) in Happly. discriminate. }
  pose proof (apply_run d Hpath) as Hrun. rewrite Happly in Hrun.
  simpl in Hrun.
  inversion Hrun as [ | | | | |
                    |
                    | ? classes pep_field more rest pep_num ? Hc _ _ _ _ Hloop
                    | ]; subst;
    try (split; [reflexivity | split; [now auto | now left]]).
  - rewrite header_fields_after_pep_number. auto.
  - rewrite (header_fields_after_loop d classes _ _ rest Hc).
    assert (Hh : header_fields d = pep_field :: more)
      by (unfold header_fields; now rewrite Hc).
    rewrite Hh. split; [apply header_after_loop_names|]. split.
    + intros f Hin Hu. now apply unneeded_field_after_loop.
    + right.
      destruct (visit_fields_stopped _ _ Hloop)
        as (pre & f & post & Hsplit & Hpre & Hf & Hvs).
      exists pre, f, post. rewrite Hvs, Hsplit, header_after_stop. auto.
Qed.

(** *** A second run *)

Lemma pretty_thread_stable (text text' : node) :
  _pretty_thread text = Ok text' -> _pretty_thread text' = Ok text'.
Proof.
  unfold _pretty_thread at 1.
  destruct (_process_list_url (str text)) as [[list_name url_type]|e] eqn:Hurl.
  - intros [= <-].
    destruct (process_list_url_ok _ _ _ Hurl) as [Hname Hkind].
    pose proof (label_is_not_a_list_url list_name url_type Hname Hkind) as Hsoft.
    change (" " +:+ url_type) with (String " " url_type) in Hsoft.
    unfold _pretty_thread. cbn [str].
    now rewrite Hsoft.
  - destruct (process_list_url_raises _ _ Hurl) as [-> | ->]; [|discriminate].
    intros Hok; inversion Hok; subst.
    unfold _pretty_thread. now rewrite Hurl.
Qed.

Lemma thread_node_stable (n n' : node) :
  thread_node n = Ok n' -> thread_node n' = Ok n'.
Proof.
  destruct n as [s|[uri|] kids|kids|tag kids|tag kids]; simpl;
    try (intros Hn; inversion Hn; subst; reflexivity);
    try discriminate.
  destruct (startswith "https://mail.python.org" uri) eqn:Hhost.
  2:{ intros Hn; inversion Hn; subst. simpl. now rewrite Hhost. }
  destruct kids as [|text more]; [discriminate|].
  destruct (_pretty_thread text) as [text'|e] eqn:Hp; simpl; [|discriminate].
  intros Hn; inversion Hn; subst. simpl.
  now rewrite Hhost, (pretty_thread_stable _ _ Hp).
Qed.

Lemma thread_nodes_stable (para : list node) :
  snd (thread_nodes para) = None ->
  thread_nodes (fst (thread_nodes para)) = (fst (thread_nodes para), None).
Proof.
  induction para as [|n rest IH]; simpl; [reflexivity|].
  destruct (thread_node n) as [n'|e] eqn:Hn; [|discriminate].
  destruct (thread_nodes rest) as [rest' r]. simpl in *.
  intros Hr. rewrite (thread_node_stable _ _ Hn), (IH Hr). reflexivity.
Qed.

(** A field that was visited without exception and not marked is left as it
    is by a second visit. *)
Lemma process_field_stable (f : field) :
  (forall n, mask_node (mask_node n) = mask_node n) ->
  raised (process_field f) = None ->
  marked (process_field f) = false ->
  process_field (now (process_field f))
  = mk_visit (now (process_field f)) false None.
Proof.
  intros Hmask Hr Hk.
  destruct (bad_body_cases f) as [Hb | [[para Hb] | Hb]].
  - rewrite (process_field_empty f Hb). cbn [now].
    now apply process_field_empty.
  - rewrite (process_field_paragraph f para Hb) in Hr, Hk |- *.
    destruct (is_masked_name f) eqn:Hm.
    { cbn [now].
      rewrite (process_field_paragraph (with_paragraph f (map mask_node para))
                 (map mask_node para) eq_refl).
      change (is_masked_name (with_paragraph f (map mask_node para)))
        with (is_masked_name f).
      rewrite Hm, map_map.
      rewrite (map_ext _ mask_node Hmask). reflexivity. }
    destruct (is_thread_name f) eqn:Ht.
    { cbn [now raised] in *.
      rewrite (process_field_paragraph (with_paragraph f (fst (thread_nodes para)))
                 (fst (thread_nodes para)) eq_refl).
      change (is_masked_name (with_paragraph f (fst (thread_nodes para))))
        with (is_masked_name f).
      change (is_thread_name (with_paragraph f (fst (thread_nodes para))))
        with (is_thread_name f).
      rewrite Hm, Ht, (thread_nodes_stable para Hr). reflexivity. }
    destruct (is_pep_list_name f) eqn:Hp.
    { rewrite (body_astext_paragraph f para Hb) in Hr, Hk |- *.
      destruct (pep_links _) as [new_body|e] eqn:Hl; [|discriminate].
      destruct (pep_links_inv _ new_body Hl) as (links & Hlinks & ->).
      cbn [now].
      rewrite (process_field_paragraph
                 (with_paragraph f (removelast (flat_map with_separator links)))
                 (removelast (flat_map with_separator links)) eq_refl).
      change (is_masked_name (with_paragraph f _)) with (is_masked_name f).
      change (is_thread_name (with_paragraph f _)) with (is_thread_name f).
      change (is_pep_list_name (with_paragraph f _)) with (is_pep_list_name f).
      rewrite Hm, Ht, Hp, body_astext_with_paragraph.
      rewrite removelast_with_separator at 1.
      rewrite (join_separated_links _ links (paragraph_tokens_free para) Hlinks).
      unfold re_split_comma_blank at 1.
      rewrite re_split_join;
        [| apply re_split_nonempty | apply re_split_from_blank_free].
      fold (re_split_comma_blank (join "" (map astext para))).
      rewrite Hl. reflexivity. }
    destruct (is_unneeded_name f) eqn:Hu; [discriminate|].
    cbn [now].
    now rewrite (process_field_paragraph f para Hb), Hm, Ht, Hp, Hu.
  - rewrite (process_field_bad_body f Hb) in Hr. discriminate.
Qed.

Lemma stable_fields_loop (header : list field) :
  Forall (fun f => process_field f = mk_visit f false None) header ->
  loop_raised (visit_fields header) = None
  /\ remove_marked (visit_fields header) = header.
Proof.
  unfold remove_marked.
  induction 1 as [|f rest Hf _ [IHl IHr]]; simpl; [auto|].
  rewrite Hf. simpl. rewrite ?Hf. simpl. rewrite IHr. auto.
Qed.

(** The run of [apply] that returns, read forwards. *)
Lemma apply_completes (d : document) (classes : list string)
      (pep_field : field) (more : list field) (rest : list block) (pep_num : Z) :
  path_match_pep (source d) = true ->
  children d = field_list classes (pep_field :: more) :: rest ->
  contains "rfc2822" classes = true ->
  rule_name pep_field = "pep" ->
  int (body_astext pep_field) = Some pep_num ->
  second_is_title (pep_field :: more) = true ->
  loop_raised (visit_fields (pep_field :: more)) = None ->
  apply d
  = (Returned,
     with_header (after_pep_number d) classes
       (remove_marked (visit_fields (pep_field :: more)))).
Proof.
  intros Hpath Hc Htag Hname Hint Htitle Hloop.
  rewrite (surjective_pairing (apply d)).
  generalize (apply_run d Hpath).
  generalize (fst (apply d)) (snd (apply d)). intros o d' Hrun.
  destruct Hrun;
    repeat match goal with
      | Hx : children ?d = _, Hy : children ?d = _ |- _ =>
          rewrite Hx in Hy; inversion Hy; subst; clear Hy
      end;
    try congruence;
    try match goal with
      | Hn : forall c h, field_list _ _ <> field_list c h |- _ =>
          exfalso; eapply Hn; reflexivity
      end.
Qed.

(** X15: on a PEP file whose number is not 0, a second run of [apply] after
    a normal return returns normally and changes nothing, provided that
    masking a masked node leaves it as it is. *)
Theorem second_apply_changes_nothing (d d' : document) :
  (forall n, mask_node (mask_node n) = mask_node n) ->
  path_match_pep (source d) = true ->
  pep_number d <> Some 0%Z ->
  apply d = (Returned, d') ->
  apply d' = (Returned, d').
Proof.
  intros Hmask Hpath Hnz Happly.
  pose proof (apply_run d Hpath) as Hrun. rewrite Happly in Hrun.
  simpl in Hrun.
  inversion Hrun as [ | | | | | | |
                    | ? classes pep_field more rest pep_num
                        Hc Htag Hname Hint Htitle Hloop ]; subst.
  destruct (after_pep_number_cases d) as [[Hbase _] | [_ Hz]]; [|contradiction].
  rewrite Hbase in *.
  destruct more as [|title_field more']; [discriminate|].
  assert (Htname : rule_name title_field = "title").
  { simpl in Htitle. now apply String.eqb_eq in Htitle. }
  destruct (visit_fields_completed _ Hloop) as [Hvs Hall].
  rewrite Hvs, (remove_marked_completed _ Hall).
  assert (Hkeep : forall f x,
             rule_name f = x ->
             contains x ["author"; "bdfl-delegate"; "pep-delegate"; "sponsor"] = false ->
             contains x ["discussions-to"; "resolution"] = false ->
             contains x ["replaces"; "superseded-by"; "requires"] = false ->
             contains x ["last-modified"; "content-type"; "version"] = false ->
             raised (process_field f) = None ->
             removed f = false /\ process_field f = mk_visit f false None).
  { intros f x Hx Hm Ht Hp Hu Hr. subst x. split.
    - unfold removed, is_unneeded_name. now rewrite Hu.
    - exact (process_field_unrecognised f Hr Hm Ht Hp Hu). }
  inversion Hall as [|? ? Hrp Hall']; subst.
  inversion Hall' as [|? ? Hrt Hall'']; subst.
  destruct (Hkeep pep_field "pep" Hname eq_refl eq_refl eq_refl eq_refl Hrp)
    as [Hpk Hpn].
  destruct (Hkeep title_field "title" Htname eq_refl eq_refl eq_refl eq_refl Hrt)
    as [Htk Htn].
  cbn [filter map]. rewrite Hpk, Htk. cbn [negb map]. rewrite Hpn, Htn.
  cbn [now].
  set (others := map (fun f => now (process_field f))
                     (filter (fun f => negb (removed f)) more')).
  assert (Hstable : Forall (fun f => process_field f = mk_visit f false None)
                           (pep_field :: title_field :: others)).
  { constructor; [exact Hpn|]. constructor; [exact Htn|].
    unfold others. apply Forall_forall. intros f' Hin'.
    apply in_map_iff in Hin'. destruct Hin' as (f & <- & Hin).
    apply filter_In in Hin. destruct Hin as [Hin Hkept].
    rewrite Forall_forall in Hall''. pose proof (Hall'' f Hin) as Hr.
    apply process_field_stable; [exact Hmask | exact Hr|].
    rewrite (process_field_marked f Hr).
    now apply negb_true_iff in Hkept. }
  destruct (stable_fields_loop _ Hstable) as [Hloop' Hsame].
  unfold with_header at 1 2. rewrite Hc.
  rewrite (apply_completes
             (with_children d (field_list classes
                                 (pep_field :: title_field :: others) :: rest))
             classes pep_field (title_field :: others) rest pep_num);
    auto.
  rewrite Hsame.
  assert (Hsame_number :
            after_pep_number
              (with_children d (field_list classes
                                  (pep_field :: title_field :: others) :: rest))
            = with_children d (field_list classes
                                 (pep_field :: title_field :: others) :: rest)).
  { unfold after_pep_number, pep_number, header_fields. cbn [children with_children].
    rewrite Hint. destruct pep_num; try reflexivity.
    exfalso. apply Hnz. unfold pep_number, header_fields. now rewrite Hc. }
  rewrite Hsame_number. reflexivity.
Qed.

(** *** PEP 0 once more *)

(** The header that a normal return leaves starts with the PEP field and the
    title field, as they were. *)
Lemma returned_header (d d' : document) :
  path_match_pep (source d) = true ->
  apply d = (Returned, d') ->
  exists classes pep_field title_field more others rest,
    children d = field_list classes (pep_field :: title_field :: more) :: rest
    /\ contains "rfc2822" classes = true
    /\ rule_name pep_field = "pep"
    /\ int (body_astext pep_field) = pep_number d
    /\ d' = with_header (after_pep_number d) classes
              (pep_field :: title_field :: others).
Proof.
  intros Hpath Happly.
  pose proof (apply_run d Hpath) as Hrun. rewrite Happly in Hrun.
  simpl in Hrun.
  inversion Hrun as [ | | | | | | |
                    | ? classes pep_field more rest pep_num
                        Hc Htag Hname Hint Htitle Hloop ]; subst.
  destruct more as [|title_field more']; [discriminate|].
  assert (Htname : rule_name title_field = "title").
  { simpl in Htitle. now apply String.eqb_eq in Htitle. }
  destruct (visit_fields_completed _ Hloop) as [Hvs Hall].
  rewrite Hvs, (remove_marked_completed _ Hall).
  inversion Hall as [|? ? Hrp Hall']; subst.
  inversion Hall' as [|? ? Hrt Hall'']; subst.
  assert (Hpep : removed pep_field = false
                 /\ process_field pep_field = mk_visit pep_field false None).
  { split.
    - unfold removed, is_unneeded_name. now rewrite Hname.
    - apply process_field_unrecognised; auto;
        unfold is_masked_name, is_thread_name, is_pep_list_name, is_unneeded_name;
        now rewrite Hname. }
  assert (Htit : removed title_field = false
                 /\ process_field title_field = mk_visit title_field false None).
  { split.
    - unfold removed, is_unneeded_name. now rewrite Htname.
    - apply process_field_unrecognised; auto;
        unfold is_masked_name, is_thread_name, is_pep_list_name, is_unneeded_name;
        now rewrite Htname. }
  destruct Hpep as [Hpk Hpn]. destruct Htit as [Htk Htn].
  cbn [filter map]. rewrite Hpk, Htk. cbn [negb map]. rewrite Hpn, Htn.
  cbn [now].
  exists classes, pep_field, title_field, more',
    (map (fun f => now (process_field f))
         (filter (fun f => negb (removed f)) more')), rest.
  repeat split; auto.
  unfold pep_number, header_fields. now rewrite Hc.
Qed.

(** X17: the pending node is registered once per run, not once per
    document: when [apply] has returned normally on PEP 0, a second run
    inserts and notes a second pending node. *)
Theorem pep_zero_is_registered_at_every_run (d d' : document) :
  path_match_pep (source d) = true ->
  pep_number d = Some 0%Z ->
  apply d = (Returned, d') ->
  noted_pending (snd (apply d')) = noted_pending d ++ [PEPZero; PEPZero]
  /\ exists header' rest,
      tl (children d) = rest
      /\ children (snd (apply d')) = header' :: PEPZero :: PEPZero :: rest.
Proof.
  intros Hpath Hz Happly.
  destruct (returned_header d d' Hpath Happly)
    as (classes & pep_field & title_field & more & others & rest
        & Hc & Htag & Hname & Hint & ->).
  unfold after_pep_number. rewrite Hz.
  set (d1 := with_header (register_pep_zero d) classes
               (pep_field :: title_field :: others)).
  assert (Hc1 : children d1
                = field_list classes (pep_field :: title_field :: others)
                    :: PEPZero :: rest).
  { unfold d1, with_header. simpl. now rewrite Hc. }
  assert (Hz1 : pep_number d1 = Some 0%Z).
  { unfold pep_number, header_fields. rewrite Hc1. congruence. }
  assert (Hpath1 : path_match_pep (source d1) = true).
  { unfold d1, with_header. simpl. now rewrite Hc. }
  assert (Hn1 : noted_pending d1 = noted_pending d ++ [PEPZero]).
  { unfold d1, with_header. simpl. now rewrite Hc. }
  destruct (run_registers d1 _ _ classes pep_field (title_field :: others)
              (PEPZero :: rest) 0%Z (apply_run d1 Hpath1) Hc1 Htag Hname)
    as [Hnoted [header' Hch]]; [congruence|].
  unfold after_pep_number in Hnoted, Hch. rewrite Hz1 in Hnoted, Hch.
  simpl in Hnoted, Hch. rewrite Hc1 in Hch. simpl in Hch.
  split.
  - rewrite Hnoted, Hn1, <- app_assoc. reflexivity.
  - exists header', rest. rewrite Hc. auto.
Qed.

(** *** Links whose text is their target *)

Lemma thread_nodes_nth (para : list node) (i : nat) (n : node) :
  snd (thread_nodes para) = None ->
  nth_error para i = Some n ->
  exists n', thread_node n = Ok n'
             /\ nth_error (fst (thread_nodes para)) i = Some n'.
Proof.
  revert i. induction para as [|m rest IH]; intros i; simpl.
  - destruct i; discriminate.
  - destruct (thread_node m) as [m'|e] eqn:Hm; [|discriminate].
    destruct (thread_nodes rest) as [rest' r]. simpl in *.
    intros Hr. destruct i as [|i]; simpl.
    + intros Hn; inversion Hn; subst. eauto.
    + apply IH. exact Hr.
Qed.

(** X16: when [apply] returns normally on a PEP file, a link of a
    discussions-to or resolution paragraph whose text is its own target, a
    URL of the mailing-list host that the classifier accepts, shows the
    label of that target afterwards, at the same place in the paragraph. *)
Theorem standalone_link_shows_its_label
        (d d' : document) (f : field) (para more : list node) (i : nat)
        (uri list_name url_type : string) :
  path_match_pep (source d) = true ->
  apply d = (Returned, d') ->
  In f (header_fields d) ->
  field_body f = [paragraph para] ->
  is_thread_name f = true ->
  nth_error para i = Some (reference (Some uri) (Text uri :: more)) ->
  startswith "https://mail.python.org" uri = true ->
  _process_list_url uri = Ok (list_name, url_type) ->
  exists para',
    In (with_paragraph f para') (header_fields d')
    /\ nth_error para' i
       = Some (reference (Some uri)
                         (Text (list_name +:+ " " +:+ url_type) :: more)).
Proof.
  intros Hpath Happly Hin Hb Hname Hnth Hhost Hurl.
  destruct (apply_returned d d' Hpath Happly) as [Hall _].
  rewrite Forall_forall in Hall. pose proof (Hall f Hin) as Hr.
  destruct (thread_name_only f Hname) as [Hm Hu].
  rewrite (process_field_paragraph f para Hb), Hm, Hname in Hr. simpl in Hr.
  exists (fst (thread_nodes para)). split.
  - replace (with_paragraph f (fst (thread_nodes para)))
      with (now (process_field f))
      by now rewrite (process_field_paragraph f para Hb), Hm, Hname.
    now apply (visited_field_is_kept d d').
  - destruct (thread_nodes_nth para i _ Hr Hnth) as (n' & Hn' & Hi).
    rewrite Hi. f_equal.
    simpl in Hn'. rewrite Hhost in Hn'. unfold _pretty_thread in Hn'.
    cbn [str] in Hn'. rewrite Hurl in Hn'. simpl in Hn'.
    now inversion Hn'.
Qed.

End Again.

(** ** The further properties on sample documents *)

Import Cases.

Lemma classified_kind_witness :
  _process_list_url archive_url = Ok ("Python-Dev", "thread")
  /\ In "thread" ["list"; "message"; "thread"]
  /\ has_char "/" "Python-Dev" = false
  /\ ("thread" = "thread" ->
      contains "archives" (url_parts archive_url) = true
      /\ nth_error (url_parts archive_url) 6 = Some "thread")
  /\ ("thread" = "message" ->
      (contains "archives" (url_parts archive_url) = true
       /\ nth_error (url_parts archive_url) 6 = Some "message")
      \/ (contains "archives" (url_parts archive_url) = false
          /\ contains "mailman3" (url_parts archive_url) = false
          /\ contains "pipermail" (url_parts archive_url) = true
          /\ (6 < length (url_parts archive_url))%nat)).
Proof.
  split; [reflexivity|].
  apply (classified_kind archive_url "Python-Dev" "thread"). reflexivity.
Defined.

Lemma classifier_ignores_case_and_blanks_witness :
  all_chars isspace "  " = true
  /\ all_chars isspace " " = true
  /\ _process_list_url ("  " +:+ map_chars to_upper archive_url +:+ " ")
     = _process_list_url archive_url.
Proof.
  split; [reflexivity|]. split; [reflexivity|].
  apply (classifier_ignores_case_and_blanks "  " " " archive_url); reflexivity.
Defined.

Lemma apply_returns_iff_witness :
  path_match_pep (source pep8) = true
  /\ (forall classes rest, children pep8 <> field_list classes [] :: rest)
  /\ (fst (@apply host pep8) = Returned
      <-> @preamble_fault pep8 = None
          /\ Forall (fun f => raised (@process_field host f) = None)
                    (header_fields pep8)).
Proof.
  assert (Hfields : forall classes rest,
             children pep8 <> field_list classes [] :: rest).
  { intros classes rest. discriminate. }
  split; [reflexivity|]. split; [exact Hfields|].
  apply (@apply_returns_iff host pep8); [reflexivity | exact Hfields].
Defined.

Lemma value_error_comes_from_a_pep_number_witness :
  fst (@apply host bad_token_first) = Raised ValueError
  /\ exists f para,
      In f (header_fields bad_token_first)
      /\ is_pep_list_name f = true
      /\ field_body f = [paragraph para]
      /\ Exists (fun t => int t = None)
                (re_split_comma_blank (join "" (map astext para))).
Proof.
  split; [reflexivity|].
  apply (@value_error_comes_from_a_pep_number host bad_token_first).
  reflexivity.
Defined.

Lemma key_error_comes_from_a_link_without_refuri_witness :
  fst (@apply host unresolved_link) = Raised KeyError
  /\ exists f para,
      In f (header_fields unresolved_link)
      /\ is_thread_name f = true
      /\ field_body f = [paragraph para]
      /\ Exists (fun n => missing_refuri n = true) para.
Proof.
  split; [reflexivity|].
  apply (@key_error_comes_from_a_link_without_refuri host unresolved_link).
  reflexivity.
Defined.

Lemma index_error_comes_from_a_short_link_witness :
  fst (@apply host short_archives) = Raised IndexError
  /\ ((exists classes rest, children short_archives = field_list classes [] :: rest)
      \/ exists f para,
          In f (header_fields short_archives)
          /\ is_thread_name f = true
          /\ field_body f = [paragraph para]
          /\ Exists (@short_thread_link host) para).
Proof.
  split; [reflexivity|].
  apply (@index_error_comes_from_a_short_link host short_archives).
  reflexivity.
Defined.

Lemma author_references_are_masked_witness :
  path_match_pep (source pep8) = true
  /\ @apply host pep8 = (Returned, pep8_after)
  /\ In author (header_fields pep8)
  /\ field_body author = [paragraph [link "mailto:guido@python.org" "Guido"]]
  /\ is_masked_name author = true
  /\ exists para',
      In (with_paragraph author para') (header_fields pep8_after)
      /\ Forall2 (fun n n' =>
                    match n with
                    | reference _ _ => n' = mask n
                    | _ => n' = n
                    end) [link "mailto:guido@python.org" "Guido"] para'.
Proof.
  assert (Hin : In author (header_fields pep8)).
  { simpl. unfold author. tauto. }
  split; [reflexivity|]. split; [reflexivity|]. split; [exact Hin|].
  split; [reflexivity|]. split; [reflexivity|].
  apply (@author_references_are_masked host pep8 pep8_after author
           [link "mailto:guido@python.org" "Guido"]);
    try reflexivity.
  exact Hin.
Defined.

Lemma thread_rewrite_keeps_targets_witness :
  field_body discussions = [paragraph [link archive_url archive_url]]
  /\ is_thread_name discussions = true
  /\ exists para',
      now (@process_field host discussions) = with_paragraph discussions para'
      /\ marked (@process_field host discussions) = false
      /\ Forall2 same_link [link archive_url archive_url] para'.
Proof.
  split; [reflexivity|]. split; [reflexivity|].
  apply (@thread_rewrite_keeps_targets host discussions
           [link archive_url archive_url]); reflexivity.
Defined.

Lemma pep_number_list_is_normalised_witness :
  field_body uneven_list = [paragraph [Text "101,  102"; Text " 103"]]
  /\ is_pep_list_name uneven_list = true
  /\ raised (@process_field host uneven_list) = None
  /\ body_astext (now (@process_field host uneven_list))
     = join ", " (re_split_comma_blank
                    (join "" (map astext [Text "101,  102"; Text " 103"])))
  /\ re_split_comma_blank (body_astext (now (@process_field host uneven_list)))
     = re_split_comma_blank (join "" (map astext [Text "101,  102"; Text " 103"])).
Proof.
  split; [reflexivity|]. split; [reflexivity|]. split; [reflexivity|].
  apply (@pep_number_list_is_normalised host uneven_list
           [Text "101,  102"; Text " 103"]); reflexivity.
Defined.

Lemma raising_apply_removes_nothing_witness :
  @apply host late_fault
  = (Raised (PEPParsingError (MultipleElements two_paragraphs)), late_fault_after)
  /\ map field_name (header_fields late_fault_after)
     = map field_name (header_fields late_fault)
  /\ (forall f,
         In f (header_fields late_fault) -> is_unneeded_name f = true ->
         In f (header_fields late_fault_after))
  /\ (header_fields late_fault_after = header_fields late_fault
      \/ exists pre f post,
          header_fields late_fault = pre ++ f :: post
          /\ Forall (fun g => raised (@process_field host g) = None) pre
          /\ raised (@process_field host f)
             = Some (PEPParsingError (MultipleElements two_paragraphs))
          /\ header_fields late_fault_after
             = map (fun g => now (@process_field host g)) pre
                 ++ now (@process_field host f) :: post).
Proof.
  split; [reflexivity|].
  apply (@raising_apply_removes_nothing host late_fault late_fault_after
           (PEPParsingError (MultipleElements two_paragraphs))).
  reflexivity.
Defined.

Lemma second_apply_changes_nothing_witness :
  (forall n, @mask_node host (@mask_node host n) = @mask_node host n)
  /\ path_match_pep (source pep8) = true
  /\ pep_number pep8 <> Some 0%Z
  /\ @apply host pep8 = (Returned, pep8_after)
  /\ @apply host pep8_after = (Returned, pep8_after).
Proof.
  assert (Hmask : forall n, @mask_node host (@mask_node host n) = @mask_node host n).
  { intros [s|[uri|] kids|kids|tag kids|tag kids]; reflexivity. }
  assert (Hnz : pep_number pep8 <> Some 0%Z).
  { discriminate. }
  split; [exact Hmask|]. split; [reflexivity|]. split; [exact Hnz|].
  split; [reflexivity|].
  apply (@second_apply_changes_nothing host pep8 pep8_after Hmask);
    [reflexivity | exact Hnz | reflexivity].
Defined.

Lemma pep_zero_is_registered_at_every_run_witness :
  path_match_pep (source pep0) = true
  /\ pep_number pep0 = Some 0%Z
  /\ @apply host pep0 = (Returned, snd (@apply host pep0))
  /\ noted_pending (snd (@apply host (snd (@apply host pep0))))
     = noted_pending pep0 ++ [PEPZero; PEPZero]
  /\ exists header' rest,
      tl (children pep0) = rest
      /\ children (snd (@apply host (snd (@apply host pep0))))
         = header' :: PEPZero :: PEPZero :: rest.
Proof.
  split; [reflexivity|]. split; [reflexivity|]. split; [reflexivity|].
  apply (@pep_zero_is_registered_at_every_run host pep0 (snd (@apply host pep0)));
    reflexivity.
Defined.

Lemma standalone_link_shows_its_label_witness :
  path_match_pep (source pep8) = true
  /\ @apply host pep8 = (Returned, pep8_after)
  /\ In discussions (header_fields pep8)
  /\ field_body discussions = [paragraph [link archive_url archive_url]]
  /\ is_thread_name discussions = true
  /\ nth_error [link archive_url archive_url] 0
     = Some (reference (Some archive_url) (Text archive_url :: []))
  /\ startswith "https://mail.python.org" archive_url = true
  /\ _process_list_url archive_url = Ok ("Python-Dev", "thread")
  /\ exists para',
      In (with_paragraph discussions para') (header_fields pep8_after)
      /\ nth_error para' 0
         = Some (reference (Some archive_url)
                           (Text ("Python-Dev" +:+ " " +:+ "thread") :: [])).
Proof.
  assert (Hin : In discussions (header_fields pep8)).
  { simpl. unfold discussions. tauto. }
  split; [reflexivity|]. split; [reflexivity|]. split; [exact Hin|].
  repeat (split; [reflexivity|]).
  apply (@standalone_link_shows_its_label host pep8 pep8_after discussions
           [link archive_url archive_url] [] 0 archive_url "Python-Dev" "thread");
    try reflexivity.
  exact Hin.
Defined.
